(** * The reminder-timer subsystem of [server.js]

    A shallow embedding of the three reminder routes of the Express server
    ([POST /api/reminders], [POST /api/reminders/:reminderId/taken],
    [GET /api/reminders]) together with the part of the Node.js runtime they
    rely on: the table of pending timeouts ([setTimeout] / [clearTimeout]),
    the wall clock ([Date.now()]) and the suspension of the [async] timer
    callback at [await twilioClient.messages.create(...)].

    Every request handler runs to completion as one step.  The timer
    callback is an [async] function: it runs synchronously up to the
    [await], and its continuation (the [catch] / [finally] blocks) runs in a
    later turn of the event loop, once the promise returned by the SMS
    client settles.  Other handlers may run in between. *)

From stdpp Require Import gmap strings list fin_maps pretty.
From Stdlib Require Import ZArith Ascii String.

Local Open Scope Z_scope.

(** ** JSON values carried by request bodies *)

(** The primitive values [express.json()] can put into a field of
    [req.body]; [JUndefined] is an absent field.  Numbers are the integral
    ones. *)
Inductive jsval : Type :=
| JUndefined
| JNull
| JBool (b : bool)
| JNum (n : Z)
| JStr (s : string).

#[global] Instance jsval_eq_dec : EqDecision jsval.
Proof. solve_decision. Defined.

(** [!v] is [negb (truthy v)]. *)
Definition truthy (v : jsval) : bool :=
  match v with
  | JUndefined | JNull => false
  | JBool b => b
  | JNum n => negb (n =? 0)
  | JStr s => negb (String.eqb s "")
  end.

(** [p.startsWith('+')] on a string. *)
Definition startsWith_plus (p : string) : bool :=
  match p with
  | String c _ => Ascii.eqb c "+"%char
  | EmptyString => false
  end.

(** ** [Map]: insertion-ordered, keys compared by value

    [new Map()] iterates in insertion order; [set] on a key that is present
    replaces the value and keeps the key's position, [set] on a new key
    appends it. *)
Module JsMap.
Section ops.
Context {V : Type}.

Fixpoint get (k : jsval) (m : list (jsval * V)) : option V :=
  match m with
  | [] => None
  | (k', v) :: m' => if decide (k = k') then Some v else get k m'
  end.

Definition has (k : jsval) (m : list (jsval * V)) : bool :=
  match get k m with Some _ => true | None => false end.

Fixpoint set (k : jsval) (v : V) (m : list (jsval * V)) : list (jsval * V) :=
  match m with
  | [] => [(k, v)]
  | (k', v') :: m' =>
      if decide (k = k') then (k, v) :: m' else (k', v') :: set k v m'
  end.

Fixpoint remove (k : jsval) (m : list (jsval * V)) : list (jsval * V) :=
  match m with
  | [] => []
  | (k', v') :: m' =>
      if decide (k = k') then remove k m' else (k', v') :: remove k m'
  end.

Definition keys (m : list (jsval * V)) : list jsval := m.*1.
End ops.
End JsMap.

(** ** Data model *)

Inductive status : Type := Active | Taken.

#[global] Instance status_eq_dec : EqDecision status.
Proof. solve_decision. Defined.

(** A value of [allReminders].  [createdAt] and [takenAt] are the instants
    whose ISO rendering the code stores; [takenAt] is absent until
    [/taken] assigns it. *)
Record reminder : Type := Reminder {
  medicineName : jsval;
  guardianPhone : jsval;
  time : jsval;
  rstatus : status;
  createdAt : Z;
  takenAt : option Z
}.

(** A value of [activeReminders]; [timer] is the handle returned by
    [setTimeout].  The [debug] sub-object only repeats the duration and the
    id for the console and is left out. *)
Record active_entry : Type := ActiveEntry {
  timer : nat;
  a_medicineName : jsval;
  a_guardianPhone : jsval;
  a_time : jsval;
  startTime : Z;
  scheduledTime : Z
}.

(** What the arrow function passed to [setTimeout] closes over.  Its
    [timerRef] is identified with the handle of the timeout it belongs to:
    each arm allocates exactly one of each. *)
Record closure : Type := Closure {
  c_reminderId : jsval;
  c_medicineName : jsval;
  c_guardianPhone : jsval;
  c_time : jsval;
  c_startTime : Z
}.

(** A pending timeout of the event loop. *)
Record timeout : Type := MkTimeout {
  deadline : Z;
  callback : closure
}.

(** One execution of the callback past the [triggered] guard, that is one
    entry into its [try] block.  [n_sent] tells whether
    [twilioClient.messages.create] was reached ([false] when the client is
    [null] and the block throws first); [n_to], [n_medicine] and [n_time]
    are what the message is built from. *)
Record notification : Type := Notification {
  n_timer : nat;
  n_reminderId : jsval;
  n_to : jsval;
  n_medicine : jsval;
  n_time : jsval;
  n_at : Z;
  n_sent : bool
}.

(** Process environment read by the routes. *)
Record config : Type := Config {
  twilioClient : bool;   (* [twilioClient] is not [null] *)
  development : bool     (* [process.env.NODE_ENV === 'development'] *)
}.

Definition TIMER_DURATION (cfg : config) : Z :=
  if development cfg then 10000 else 5 * 60 * 1000.

(** The module-level maps and the runtime state the routes act on. *)
Record state : Type := State {
  now : Z;                                      (* [Date.now()] *)
  allReminders : list (jsval * reminder);
  activeReminders : list (jsval * active_entry);
  next_timer : nat;                             (* next handle of [setTimeout] *)
  timers : gmap nat timeout;                    (* pending timeouts *)
  triggered : gmap nat bool;                    (* [timerRef.triggered], per arm *)
  awaiting : gmap nat closure;                  (* callbacks suspended at [await] *)
  notifications : list notification             (* most recent first *)
}.

Definition init : state :=
  {| now := 0; allReminders := []; activeReminders := []; next_timer := 0%nat;
     timers := ∅; triggered := ∅; awaiting := ∅; notifications := [] |}.

(** Body of [POST /api/reminders]. *)
Record request : Type := Request {
  q_reminderId : jsval;
  q_medicineName : jsval;
  q_guardianPhone : jsval;
  q_time : jsval
}.

Inductive body : Type :=
| MissingReminderId
| InvalidPhoneFormat
| TimerSet (reminderId : jsval) (startTime scheduledSMSTime : Z)
| InvalidReminderId
| ReminderNotFound (reminderId : string)
| MarkedTaken (reminderId : string) (st : status) (takenAt : option Z)
| Reminders (l : list (jsval * reminder)).

(** What a step hands back: an HTTP response, an uncaught [TypeError]
    leaving the handler, or nothing (timer and promise callbacks). *)
Inductive outcome : Type :=
| Responds (code : nat) (b : body)
| ThrowsTypeError
| NoResponse.

(** ** Runtime primitives *)

Definition clearTimeout (h : nat) (s : state) : state :=
  {| now := now s; allReminders := allReminders s;
     activeReminders := activeReminders s; next_timer := next_timer s;
     timers := delete h (timers s); triggered := triggered s;
     awaiting := awaiting s; notifications := notifications s |}.

Definition set_allReminders (m : list (jsval * reminder)) (s : state) : state :=
  {| now := now s; allReminders := m;
     activeReminders := activeReminders s; next_timer := next_timer s;
     timers := timers s; triggered := triggered s;
     awaiting := awaiting s; notifications := notifications s |}.

Definition set_activeReminders (m : list (jsval * active_entry)) (s : state) : state :=
  {| now := now s; allReminders := allReminders s;
     activeReminders := m; next_timer := next_timer s;
     timers := timers s; triggered := triggered s;
     awaiting := awaiting s; notifications := notifications s |}.

(** [setTimeout(cb, d)] together with the allocation of
    [timerRef = { timer, triggered: false }]. *)
Definition setTimeout (cb : closure) (d : Z) (s : state) : nat * state :=
  let h := next_timer s in
  (h, {| now := now s; allReminders := allReminders s;
         activeReminders := activeReminders s; next_timer := S h;
         timers := <[h := MkTimeout (now s + d) cb]> (timers s);
         triggered := <[h := false]> (triggered s);
         awaiting := awaiting s; notifications := notifications s |}).

Section Server.
Variable cfg : config.

(** ** [POST /api/reminders] *)
Definition createReminder (q : request) (s : state) : state * outcome :=
  let reminderId := q_reminderId q in
  if negb (truthy reminderId) then (s, Responds 400 MissingReminderId)
  else
    let s1 :=
      set_allReminders
        (JsMap.set reminderId
           {| medicineName := q_medicineName q;
              guardianPhone := q_guardianPhone q;
              time := q_time q;
              rstatus := Active;
              createdAt := now s;
              takenAt := None |}
           (allReminders s)) s in
    match q_guardianPhone q with
    | JStr p =>
        if negb (startsWith_plus p) then (s1, Responds 400 InvalidPhoneFormat)
        else
          let s2 :=
            match JsMap.get reminderId (activeReminders s1) with
            | Some e => clearTimeout (timer e) s1
            | None => s1
            end in
          let cb :=
            {| c_reminderId := reminderId;
               c_medicineName := q_medicineName q;
               c_guardianPhone := q_guardianPhone q;
               c_time := q_time q;
               c_startTime := now s |} in
          let '(h, s3) := setTimeout cb (TIMER_DURATION cfg) s2 in
          let s4 :=
            set_activeReminders
              (JsMap.set reminderId
                 {| timer := h;
                    a_medicineName := q_medicineName q;
                    a_guardianPhone := q_guardianPhone q;
                    a_time := q_time q;
                    startTime := now s;
                    scheduledTime := now s + TIMER_DURATION cfg |}
                 (activeReminders s3)) s3 in
          (s4, Responds 200
                 (TimerSet reminderId (now s) (now s + TIMER_DURATION cfg)))
    | _ =>
        (* [guardianPhone.startsWith] on [undefined] / [null], or on a
           value that has no such method *)
        (s1, ThrowsTypeError)
    end.

(** ** [POST /api/reminders/:reminderId/taken] *)
Definition markTaken (reminderId : string) (s : state) : state * outcome :=
  if negb (truthy (JStr reminderId)) then (s, Responds 400 InvalidReminderId)
  else
    match JsMap.get (JStr reminderId) (allReminders s) with
    | None => (s, Responds 404 (ReminderNotFound reminderId))
    | Some reminderData =>
        let reminderData' :=
          {| medicineName := medicineName reminderData;
             guardianPhone := guardianPhone reminderData;
             time := time reminderData;
             rstatus := Taken;
             createdAt := createdAt reminderData;
             takenAt := Some (now s) |} in
        let s1 :=
          set_allReminders
            (JsMap.set (JStr reminderId) reminderData' (allReminders s)) s in
        let s2 :=
          match JsMap.get (JStr reminderId) (activeReminders s1) with
          | Some activeReminderData =>
              set_activeReminders
                (JsMap.remove (JStr reminderId) (activeReminders s1))
                (clearTimeout (timer activeReminderData) s1)
          | None => s1
          end in
        (s2, Responds 200
               (MarkedTaken reminderId Taken (takenAt reminderData')))
    end.

(** ** [GET /api/reminders] *)
Definition listReminders (s : state) : state * outcome :=
  (s, Responds 200 (Reminders (allReminders s))).

(** ** The timer callback *)

(** The [finally] block. *)
Definition finalize (cb : closure) (s : state) : state :=
  set_activeReminders
    (JsMap.remove (c_reminderId cb) (activeReminders s)) s.

(** The callback of the arm [h], from its first statement to the [await]
    (client present) or to its end (client [null]: the [throw] is caught
    and [finally] runs in the same turn). *)
Definition timer_callback (h : nat) (cb : closure) (s : state) : state :=
  match triggered s !! h with
  | Some true => s
  | _ =>
      let n :=
        {| n_timer := h; n_reminderId := c_reminderId cb;
           n_to := c_guardianPhone cb; n_medicine := c_medicineName cb;
           n_time := c_time cb; n_at := now s;
           n_sent := twilioClient cfg |} in
      let s1 :=
        {| now := now s; allReminders := allReminders s;
           activeReminders := activeReminders s; next_timer := next_timer s;
           timers := timers s; triggered := <[h := true]> (triggered s);
           awaiting := awaiting s;
           notifications := n :: notifications s |} in
      if twilioClient cfg then
        {| now := now s1; allReminders := allReminders s1;
           activeReminders := activeReminders s1; next_timer := next_timer s1;
           timers := timers s1; triggered := triggered s1;
           awaiting := <[h := cb]> (awaiting s1);
           notifications := notifications s1 |}
      else finalize cb s1
  end.

(** The event loop runs a timeout that is pending and due: it leaves the
    table and its callback is called. *)
Definition fire (h : nat) (s : state) : state :=
  match timers s !! h with
  | Some t =>
      if decide (deadline t ≤ now s)
      then timer_callback h (callback t) (clearTimeout h s)
      else s
  | None => s
  end.

(** The promise of [messages.create] settles (fulfilled or rejected): the
    suspended callback logs the result and runs [finally]. *)
Definition settle (h : nat) (fulfilled : bool) (s : state) : state :=
  match awaiting s !! h with
  | Some cb =>
      finalize cb
        {| now := now s; allReminders := allReminders s;
           activeReminders := activeReminders s; next_timer := next_timer s;
           timers := timers s; triggered := triggered s;
           awaiting := delete h (awaiting s);
           notifications := notifications s |}
  | None => s
  end.

Definition advance (dt : N) (s : state) : state :=
  {| now := now s + Z.of_N dt; allReminders := allReminders s;
     activeReminders := activeReminders s; next_timer := next_timer s;
     timers := timers s; triggered := triggered s;
     awaiting := awaiting s; notifications := notifications s |}.

(** ** Turns of the event loop *)
Inductive event : Type :=
| PostReminder (q : request)
| PostTaken (reminderId : string)
| GetReminders
| TimerFires (h : nat)
| SmsSettles (h : nat) (fulfilled : bool)
| ClockAdvances (dt : N).

Definition step (s : state) (e : event) : state * outcome :=
  match e with
  | PostReminder q => createReminder q s
  | PostTaken reminderId => markTaken reminderId s
  | GetReminders => listReminders s
  | TimerFires h => (fire h s, NoResponse)
  | SmsSettles h ok => (settle h ok s, NoResponse)
  | ClockAdvances dt => (advance dt s, NoResponse)
  end.

Definition run (s : state) (evs : list event) : state :=
  foldl (λ s e, (step s e).1) s evs.

Definition reachable (s : state) : Prop := ∃ evs, s = run init evs.

End Server.

(** ** Observations on states *)

(** The notification attempts made by the callback of the arm [h]. *)
Definition attempts_of (h : nat) (s : state) : list notification :=
  filter (λ n, n_timer n = h) (notifications s).

(** The notification attempts made for the reminder [id]. *)
Definition attempts_for (id : jsval) (s : state) : list notification :=
  filter (λ n, n_reminderId n = id) (notifications s).

Definition status_of (id : jsval) (s : state) : option status :=
  rstatus <$> JsMap.get id (allReminders s).

Definition takenAt_of (id : jsval) (s : state) : option Z :=
  JsMap.get id (allReminders s) ≫= takenAt.

(** The handles of the pending timeouts whose callback is for [id]. *)
Definition pending_for (id : jsval) (s : state) : gset nat :=
  dom (filter (λ ht, c_reminderId (callback ht.2) = id) (timers s)).

(** Bookkeeping of timer handles that every reachable state satisfies:
    an arm has attempted a notification only if its [triggered] flag is
    set, a pending timeout has its flag still clear, and handles not yet
    handed out are unknown to the runtime. *)
Record timers_ok (s : state) : Prop := TimersOk {
  ok_untriggered h : triggered s !! h ≠ Some true → attempts_of h s = [];
  ok_pending h : is_Some (timers s !! h) → triggered s !! h = Some false;
  ok_fresh h : (next_timer s ≤ h)%nat → triggered s !! h = None ∧ timers s !! h = None
}.

(** Every id in [activeReminders] has an [active] record in
    [allReminders]. *)
Definition armed_are_active (s : state) : Prop :=
  ∀ id e, JsMap.get id (activeReminders s) = Some e →
    ∃ r, JsMap.get id (allReminders s) = Some r ∧ rstatus r = Active.

(** ** Configurations and requests used in the examples *)

(** SMS client initialised, [NODE_ENV=development]: the delay is 10 s. *)
Definition dev : config := {| twilioClient := true; development := true |}.

(** SMS client initialised, production delay of 5 min. *)
Definition production : config := {| twilioClient := true; development := false |}.

(** No Twilio credentials: [twilioClient] stays [null]. *)
Definition no_sms : config := {| twilioClient := false; development := true |}.

Definition reminder_request (id : string) (phone : jsval) : request :=
  {| q_reminderId := JStr id; q_medicineName := JStr "aspirin";
     q_guardianPhone := phone; q_time := JStr "08:00" |}.

Definition r1 : request := reminder_request "r1" (JStr "+15551234567").

Definition r1_callback : closure :=
  {| c_reminderId := JStr "r1"; c_medicineName := JStr "aspirin";
     c_guardianPhone := JStr "+15551234567"; c_time := JStr "08:00";
     c_startTime := 10000 |}.

Definition r1_alert (h : nat) (at_ : Z) : notification :=
  {| n_timer := h; n_reminderId := JStr "r1"; n_to := JStr "+15551234567";
     n_medicine := JStr "aspirin"; n_time := JStr "08:00"; n_at := at_;
     n_sent := true |}.

(** The first arm of "r1" fires at its deadline; while its SMS is in
    flight the reminder is created again, and only then does the promise
    of the first SMS settle. *)
Definition rearm_during_send : list event :=
  [PostReminder r1; ClockAdvances 10000; TimerFires 0; PostReminder r1;
   SmsSettles 0 true].

(** ** Shape of reachable states *)

(** A stored record is either active with no [takenAt], or taken with a
    [takenAt] that lies between its creation and the present. *)
Definition record_ok (t_now : Z) (r : reminder) : Prop :=
  createdAt r ≤ t_now ∧
  match rstatus r with
  | Active => takenAt r = None
  | Taken => ∃ t, takenAt r = Some t ∧ createdAt r ≤ t ≤ t_now
  end.

Definition store_ok (s : state) : Prop :=
  0 ≤ now s ∧
  NoDup (JsMap.keys (allReminders s)) ∧
  Forall (λ kv, truthy kv.1 = true ∧ record_ok (now s) kv.2) (allReminders s).

(** What a callback closes over comes from a create request that passed
    both checks: a truthy id that has a record, and a phone string that
    starts with '+'. *)
Definition closure_ok (s : state) (cb : closure) : Prop :=
  truthy (c_reminderId cb) = true ∧
  c_reminderId cb ∈ JsMap.keys (allReminders s) ∧
  ∃ p, c_guardianPhone cb = JStr p ∧ startsWith_plus p = true.

Definition notification_ok (cfg : config) (s : state) (n : notification) : Prop :=
  truthy (n_reminderId n) = true ∧
  n_reminderId n ∈ JsMap.keys (allReminders s) ∧
  (∃ p, n_to n = JStr p ∧ startsWith_plus p = true) ∧
  n_sent n = twilioClient cfg ∧
  n_at n ≤ now s.

Definition alerts_ok (cfg : config) (s : state) : Prop :=
  (∀ h t, timers s !! h = Some t →
     closure_ok s (callback t) ∧
     deadline t = c_startTime (callback t) + TIMER_DURATION cfg ∧
     0 ≤ c_startTime (callback t) ≤ now s) ∧
  Forall (notification_ok cfg s) (notifications s).


(** Every entry of [activeReminders] stands for an arm that is still
    alive: its timeout is pending, or its callback is suspended at the
    [await]; either way the arm is for the id of the entry. *)
Definition entries_live (s : state) : Prop :=
  (∀ id a, JsMap.get id (activeReminders s) = Some a →
     (∃ t, timers s !! timer a = Some t ∧ c_reminderId (callback t) = id) ∨
     (∃ cb, awaiting s !! timer a = Some cb ∧ c_reminderId cb = id)) ∧
  (∀ h cb, awaiting s !! h = Some cb → triggered s !! h = Some true).

(** ** Accounts: [POST /api/auth/signup] and [POST /api/auth/login] *)

Record signup_body : Type := SignupBody {
  b_name : jsval;
  b_email : jsval;
  b_password : jsval;
  b_age : jsval;
  b_gender : jsval;
  b_patientName : jsval;
  b_guardianPhone : jsval
}.

(** A value of the [users] map. *)
Record user : Type := User {
  u_id : string;
  u_name : jsval;
  u_email : jsval;
  u_password : jsval;
  u_age : jsval;
  u_gender : jsval;
  u_patientName : jsval;
  u_guardianPhone : jsval
}.

(** [const { password: _, ...userWithoutPassword } = user]. *)
Record public_user : Type := PublicUser {
  p_id : string;
  p_name : jsval;
  p_email : jsval;
  p_age : jsval;
  p_gender : jsval;
  p_patientName : jsval;
  p_guardianPhone : jsval
}.

Definition userWithoutPassword (u : user) : public_user :=
  {| p_id := u_id u; p_name := u_name u; p_email := u_email u;
     p_age := u_age u; p_gender := u_gender u;
     p_patientName := u_patientName u;
     p_guardianPhone := u_guardianPhone u |}.

Inductive auth_body : Type :=
| AllFieldsRequired
| PhoneMustStartWithPlus
| EmailAlreadyRegistered
| EmailAndPasswordRequired
| InvalidEmailOrPassword
| Session (u : public_user) (token : string).

Inductive auth_outcome : Type :=
| AuthResponds (code : nat) (b : auth_body)
| AuthThrowsTypeError.

(** The [users] map and the clock the signup route reads. *)
Record accounts : Type := Accounts {
  clock : Z;
  users : list (jsval * user)
}.

Definition no_accounts : accounts := {| clock := 0; users := [] |}.

(** [Array.from(users.values()).some(user => user.email === email)]. *)
Definition email_registered (email : jsval) (us : list (jsval * user)) : bool :=
  existsb (λ kv, bool_decide (u_email kv.2 = email)) us.

(** [Array.from(users.values()).find(u => u.email === email)]. *)
Definition find_user (email : jsval) (us : list (jsval * user)) : option user :=
  snd <$> List.find (λ kv, bool_decide (u_email kv.2 = email)) us.

Section Auth.
(** [jwt.sign({ userId }, JWT_SECRET, { expiresIn: '24h' })], as a function
    of the claim and of the instant of the call. *)
Variable jwt_sign : string → Z → string.

Definition signup (b : signup_body) (a : accounts) : accounts * auth_outcome :=
  if negb (truthy (b_name b)) || negb (truthy (b_email b))
     || negb (truthy (b_password b)) || negb (truthy (b_age b))
     || negb (truthy (b_gender b)) || negb (truthy (b_patientName b))
     || negb (truthy (b_guardianPhone b))
  then (a, AuthResponds 400 AllFieldsRequired)
  else
    match b_guardianPhone b with
    | JStr p =>
        if negb (startsWith_plus p)
        then (a, AuthResponds 400 PhoneMustStartWithPlus)
        else if email_registered (b_email b) (users a)
        then (a, AuthResponds 400 EmailAlreadyRegistered)
        else
          let user :=
            {| u_id := pretty (clock a);
               u_name := b_name b; u_email := b_email b;
               u_password := b_password b; u_age := b_age b;
               u_gender := b_gender b; u_patientName := b_patientName b;
               u_guardianPhone := b_guardianPhone b |} in
          ({| clock := clock a;
              users := JsMap.set (JStr (u_id user)) user (users a) |},
           AuthResponds 201
             (Session (userWithoutPassword user) (jwt_sign (u_id user) (clock a))))
    | _ =>
        (* a truthy number or [true] has no [startsWith] *)
        (a, AuthThrowsTypeError)
    end.

Definition login (email password : jsval) (a : accounts) : accounts * auth_outcome :=
  if negb (truthy email) || negb (truthy password)
  then (a, AuthResponds 400 EmailAndPasswordRequired)
  else
    match find_user email (users a) with
    | Some u =>
        if decide (u_password u = password)
        then (a, AuthResponds 200
                   (Session (userWithoutPassword u) (jwt_sign (u_id u) (clock a))))
        else (a, AuthResponds 401 InvalidEmailOrPassword)
    | None => (a, AuthResponds 401 InvalidEmailOrPassword)
    end.




End Auth.

(** None of the seven fields of the signup body is falsy. *)
Definition signup_fields_present (b : signup_body) : bool :=
  truthy (b_name b) && truthy (b_email b) && truthy (b_password b)
  && truthy (b_age b) && truthy (b_gender b) && truthy (b_patientName b)
  && truthy (b_guardianPhone b).

(** The user the signup route builds from a body at a given instant. *)
Definition new_user (t : Z) (b : signup_body) : user :=
  {| u_id := pretty t; u_name := b_name b; u_email := b_email b;
     u_password := b_password b; u_age := b_age b; u_gender := b_gender b;
     u_patientName := b_patientName b; u_guardianPhone := b_guardianPhone b |}.



(** ** The SMS test routes *)

Inductive sms_text : Type :=
| TestMessage                     (* [POST /api/test-sms] *)
| TimedTestMessage (at_ : Z)      (* [POST /api/immediate-test-sms] *)
| DirectTestMessage.              (* [GET /api/test-sms/:phoneNumber] *)

(** The argument of one call of [twilioClient.messages.create]. *)
Record sms : Type := Sms {
  sms_to : jsval;
  sms_body : sms_text
}.

(** How the promise of [messages.create] settles. *)
Inductive sms_result : Type :=
| SmsFulfilled (sid status : string)
| SmsRejected (message : string) (code : jsval).

(** [error.message] in a [catch] block: the message of the SMS client's
    error, or that of a [TypeError] raised by the route itself. *)
Inductive error_message : Type :=
| ClientError (message : string)
| TypeErrorMessage.

Inductive test_body : Type :=
| ClientNotInitialized
| InvalidPhoneNumberFormat
| TestSent (messageSid : string)
| ImmediateSent (messageSid : string) (to : jsval) (status : string)
| DirectSent (messageId : string)
| FailedToSend (details : error_message) (code : jsval)
| DirectFailed (error : error_message).

(** The three test routes wrap their work in [try]/[catch] and always
    answer. *)
Inductive test_outcome : Type :=
| TestResponds (code : nat) (b : test_body).

Section TestRoutes.
Variable cfg : config.
(** The behaviour of the SMS service on the call the route makes. *)
Variable create : sms → sms_result.

(** [POST /api/test-sms]: the messages handed to the client, and the
    response. *)
Definition post_test_sms (phoneNumber : jsval) : list sms * test_outcome :=
  if negb (twilioClient cfg) then ([], TestResponds 500 ClientNotInitialized)
  else
    let m := {| sms_to := phoneNumber; sms_body := TestMessage |} in
    match create m with
    | SmsFulfilled sid _ => ([m], TestResponds 200 (TestSent sid))
    | SmsRejected msg code =>
        ([m], TestResponds 500 (FailedToSend (ClientError msg) code))
    end.

(** [POST /api/immediate-test-sms]; the format check is inside the [try]
    block, so a [TypeError] raised by it is caught by the route. *)
Definition post_immediate_test_sms (t_now : Z) (phoneNumber : jsval)
  : list sms * test_outcome :=
  if negb (twilioClient cfg) then ([], TestResponds 500 ClientNotInitialized)
  else
    match phoneNumber with
    | JStr p =>
        if negb (startsWith_plus p)
        then ([], TestResponds 400 InvalidPhoneNumberFormat)
        else
          let m := {| sms_to := phoneNumber; sms_body := TimedTestMessage t_now |} in
          match create m with
          | SmsFulfilled sid status =>
              ([m], TestResponds 200 (ImmediateSent sid phoneNumber status))
          | SmsRejected msg code =>
              ([m], TestResponds 500 (FailedToSend (ClientError msg) code))
          end
    | _ => ([], TestResponds 500 (FailedToSend TypeErrorMessage JUndefined))
    end.

(** [GET /api/test-sms/:phoneNumber]; there is no check of [twilioClient]:
    on [null] the access to [twilioClient.messages] throws inside [try]. *)
Definition get_test_sms (phoneNumber : string) : list sms * test_outcome :=
  if twilioClient cfg then
    let m := {| sms_to := JStr phoneNumber; sms_body := DirectTestMessage |} in
    match create m with
    | SmsFulfilled sid _ => ([m], TestResponds 200 (DirectSent sid))
    | SmsRejected msg _ => ([m], TestResponds 500 (DirectFailed (ClientError msg)))
    end
  else ([], TestResponds 500 (DirectFailed TypeErrorMessage)).
End TestRoutes.

(** ** Accounts and SMS services used in the examples *)

Definition r1_entry : active_entry :=
  {| timer := 0; a_medicineName := JStr "aspirin";
     a_guardianPhone := JStr "+15551234567"; a_time := JStr "08:00";
     startTime := 0; scheduledTime := 10000 |}.


(** A token that spells out what it was signed for. *)
Definition plain_token (userId : string) (t : Z) : string :=
  userId +:+ "@" +:+ pretty t.

Definition signup_of (name email : string) (phone : jsval) : signup_body :=
  {| b_name := JStr name; b_email := JStr email; b_password := JStr "secret";
     b_age := JNum 70; b_gender := JStr "f"; b_patientName := JStr name;
     b_guardianPhone := phone |}.



(** An SMS service that accepts every message. *)
Definition accepting (m : sms) : sms_result := SmsFulfilled "SM1" "queued".

(** ** Lemmas on [Map] *)
Section JsMapFacts.
Context {V : Type}.
Implicit Types (m : list (jsval * V)) (k : jsval) (v : V).

Lemma get_set k k' v m :
  JsMap.get k (JsMap.set k' v m) = if decide (k = k') then Some v else JsMap.get k m.
Proof.
  induction m as [|[k0 v0] m IH]; simpl.
  - destruct (decide (k = k')); reflexivity.
  - destruct (decide (k' = k0)) as [->|Hne]; simpl.
    + destruct (decide (k = k0)); reflexivity.
    + destruct (decide (k = k0)) as [->|Hne'].
      * destruct (decide (k0 = k')); congruence.
      * apply IH.
Qed.

Lemma get_set_eq k v m : JsMap.get k (JsMap.set k v m) = Some v.
Proof. rewrite get_set. destruct (decide (k = k)); congruence. Qed.

Lemma get_set_ne k k' v m : k ≠ k' → JsMap.get k (JsMap.set k' v m) = JsMap.get k m.
Proof. intros Hne. rewrite get_set. destruct (decide (k = k')); congruence. Qed.

Lemma get_remove k k' m :
  JsMap.get k (JsMap.remove k' m) = if decide (k = k') then None else JsMap.get k m.
Proof.
  induction m as [|[k0 v0] m IH]; simpl.
  - destruct (decide (k = k')); reflexivity.
  - destruct (decide (k' = k0)) as [->|Hne]; simpl.
    + rewrite IH. destruct (decide (k = k0)); reflexivity.
    + destruct (decide (k = k0)) as [->|Hne'].
      * destruct (decide (k0 = k')); congruence.
      * apply IH.
Qed.

Lemma has_get k m : JsMap.has k m = true ↔ is_Some (JsMap.get k m).
Proof.
  unfold JsMap.has. destruct (JsMap.get k m); split; intros H;
    eauto; try discriminate. destruct H; discriminate.
Qed.

Lemma get_keys k m : is_Some (JsMap.get k m) ↔ k ∈ JsMap.keys m.
Proof.
  unfold JsMap.keys. induction m as [|[k0 v0] m IH]; simpl.
  - split; [intros [? [=]] | intros H; inversion H].
  - destruct (decide (k = k0)) as [->|Hne].
    + split; eauto. intros _. left.
    + rewrite IH. split; [right; done | intros H].
      inversion H; subst; [congruence | done].
Qed.

(** [set] replaces in place or appends: the keys already present keep
    their positions. *)
Lemma keys_set k v m :
  JsMap.keys (JsMap.set k v m) =
    if JsMap.has k m then JsMap.keys m else JsMap.keys m ++ [k].
Proof.
  unfold JsMap.keys, JsMap.has. induction m as [|[k0 v0] m IH]; [done|].
  cbn [JsMap.set JsMap.get]. destruct (decide (k = k0)) as [->|Hne]; [done|].
  rewrite !fmap_cons, IH. destruct (JsMap.get k m); reflexivity.
Qed.

Lemma keys_set_prefix k v m : JsMap.keys m `prefix_of` JsMap.keys (JsMap.set k v m).
Proof.
  rewrite keys_set. destruct (JsMap.has k m); [done|]. by apply prefix_app_r.
Qed.
End JsMapFacts.

(** ** Effects of the handlers on each component of the state *)

Ltac handlers :=
  unfold createReminder, markTaken, listReminders, fire, settle, advance,
    timer_callback, finalize, setTimeout, clearTimeout, set_allReminders,
    set_activeReminders;
  cbn beta iota zeta.

Ltac by_cases := handlers; repeat case_match; simplify_eq/=; eauto.

Section HandlerFacts.
Variable cfg : config.
Implicit Types (s : state) (h : nat) (e : event) (q : request).

(** *** The store *)

Lemma createReminder_allReminders q s :
  allReminders (createReminder cfg q s).1 =
    if truthy (q_reminderId q)
    then JsMap.set (q_reminderId q)
           (Reminder (q_medicineName q) (q_guardianPhone q) (q_time q)
              Active (now s) None)
           (allReminders s)
    else allReminders s.
Proof. by_cases. Qed.

Lemma markTaken_allReminders id s :
  allReminders (markTaken id s).1 =
    match JsMap.get (JStr id) (allReminders s) with
    | Some r =>
        if truthy (JStr id)
        then JsMap.set (JStr id)
               (Reminder (medicineName r) (guardianPhone r) (time r) Taken
                  (createdAt r) (Some (now s)))
               (allReminders s)
        else allReminders s
    | None => allReminders s
    end.
Proof. by_cases. Qed.

Lemma fire_allReminders h s : allReminders (fire cfg h s) = allReminders s.
Proof. by_cases. Qed.

Lemma settle_allReminders h ok s : allReminders (settle h ok s) = allReminders s.
Proof. by_cases. Qed.

Lemma timer_callback_allReminders h cb s :
  allReminders (timer_callback cfg h cb s) = allReminders s.
Proof. by_cases. Qed.

(** *** The notification log *)

Lemma createReminder_notifications q s :
  notifications (createReminder cfg q s).1 = notifications s.
Proof. by_cases. Qed.

Lemma markTaken_notifications id s :
  notifications (markTaken id s).1 = notifications s.
Proof. by_cases. Qed.

Lemma settle_notifications h ok s :
  notifications (settle h ok s) = notifications s.
Proof. by_cases. Qed.

(** A callback that finds its flag set does nothing at all. *)
Lemma timer_callback_triggered h cb s :
  triggered s !! h = Some true → timer_callback cfg h cb s = s.
Proof. intros H. unfold timer_callback. by rewrite H. Qed.

(** Otherwise it sets the flag and makes one attempt. *)
Lemma timer_callback_first h cb s :
  triggered s !! h ≠ Some true →
  triggered (timer_callback cfg h cb s) = <[h := true]> (triggered s) ∧
  notifications (timer_callback cfg h cb s) =
    Notification h (c_reminderId cb) (c_guardianPhone cb) (c_medicineName cb)
      (c_time cb) (now s) (twilioClient cfg) :: notifications s ∧
  timers (timer_callback cfg h cb s) = timers s ∧
  next_timer (timer_callback cfg h cb s) = next_timer s.
Proof. intros H. by_cases. Qed.

(** A timeout that is not pending, or not yet due, is not run. *)
Lemma fire_not_pending h s : timers s !! h = None → fire cfg h s = s.
Proof. intros H. unfold fire. by rewrite H. Qed.

Lemma fire_pending h t s :
  timers s !! h = Some t → deadline t ≤ now s →
  fire cfg h s = timer_callback cfg h (callback t) (clearTimeout h s).
Proof. intros H Hd. unfold fire. rewrite H. by case_decide. Qed.

(** *** Timer bookkeeping is preserved by every turn *)

Lemma timers_ok_ext s s' :
  timers s' = timers s → triggered s' = triggered s →
  notifications s' = notifications s → next_timer s' = next_timer s →
  timers_ok s → timers_ok s'.
Proof.
  intros Ht Hg Hn Hx [H1 H2 H3].
  split; unfold attempts_of; rewrite ?Ht, ?Hg, ?Hn, ?Hx; auto.
Qed.

Lemma timers_ok_init : timers_ok init.
Proof.
  split; intros h; simpl; rewrite ?lookup_empty; auto.
  intros [? ?]; done.
Qed.

Lemma timers_ok_clearTimeout h s : timers_ok s → timers_ok (clearTimeout h s).
Proof.
  intros [H1 H2 H3]. split; simpl.
  - exact H1.
  - intros h' [t Ht]. apply lookup_delete_Some in Ht as [_ Ht]. apply H2; eauto.
  - intros h' Hh. destruct (H3 h' Hh) as [? Hn]. split; [done|].
    apply lookup_delete_None. auto.
Qed.

Lemma timers_ok_setTimeout cb d s : timers_ok s → timers_ok (setTimeout cb d s).2.
Proof.
  intros [H1 H2 H3]. split; simpl.
  - intros h Hh. apply H1. destruct (decide (h = next_timer s)) as [->|Hne].
    + destruct (H3 (next_timer s)) as [-> _]; [lia | done].
    + by rewrite lookup_insert_ne in Hh.
  - intros h [t Ht]. destruct (decide (h = next_timer s)) as [->|Hne].
    + apply lookup_insert_eq.
    + rewrite lookup_insert_ne in Ht by done. rewrite lookup_insert_ne by done.
      apply H2; eauto.
  - intros h Hh. destruct (H3 h) as [? ?]; [lia|].
    rewrite !lookup_insert_ne by lia. done.
Qed.

Lemma timers_ok_timer_callback h cb s :
  timers_ok s → timers s !! h = None → (h < next_timer s)%nat →
  timers_ok (timer_callback cfg h cb s).
Proof.
  intros Hok Hnone Hlt.
  destruct (decide (triggered s !! h = Some true)) as [Htr|Htr].
  { by rewrite timer_callback_triggered. }
  destruct (timer_callback_first h cb s Htr) as (Hg & Hn & Ht & Hx).
  destruct Hok as [H1 H2 H3].
  split; unfold attempts_of; rewrite ?Hg, ?Hn, ?Ht, ?Hx.
  - intros h' Hh'. destruct (decide (h' = h)) as [->|Hne].
    + by rewrite lookup_insert_eq in Hh'.
    + rewrite lookup_insert_ne in Hh' by done.
      rewrite filter_cons_False by (simpl; congruence). by apply H1.
  - intros h' Hh'. destruct (decide (h' = h)) as [->|Hne].
    + rewrite Hnone in Hh'. by destruct Hh'.
    + rewrite lookup_insert_ne by done. by apply H2.
  - intros h' Hh'. rewrite lookup_insert_ne by lia. by apply H3.
Qed.
End HandlerFacts.

Section Reachability.
Variable cfg : config.
Implicit Types (s : state) (h : nat) (e : event) (q : request).

Lemma run_snoc s evs e : run cfg s (evs ++ [e]) = (step cfg (run cfg s evs) e).1.
Proof. unfold run. by rewrite foldl_app. Qed.

Lemma run_app s evs1 evs2 :
  run cfg s (evs1 ++ evs2) = run cfg (run cfg s evs1) evs2.
Proof. unfold run. by rewrite foldl_app. Qed.

Lemma run_cons s e evs : run cfg s (e :: evs) = run cfg (step cfg s e).1 evs.
Proof. reflexivity. Qed.

Lemma reachable_init : reachable cfg init.
Proof. by exists []. Qed.

Lemma reachable_step s e : reachable cfg s → reachable cfg (step cfg s e).1.
Proof. intros [evs ->]. exists (evs ++ [e]). by rewrite run_snoc. Qed.

Lemma reachable_run s evs : reachable cfg s → reachable cfg (run cfg s evs).
Proof. intros [evs0 ->]. exists (evs0 ++ evs). by rewrite run_app. Qed.

(** Induction over the turns that lead to a reachable state. *)
Lemma reachable_ind (P : state → Prop) :
  P init → (∀ s e, reachable cfg s → P s → P (step cfg s e).1) →
  ∀ s, reachable cfg s → P s.
Proof.
  intros Hinit Hstep s [evs ->].
  induction evs as [|e evs IH] using rev_ind; [done|].
  rewrite run_snoc. apply Hstep; [by eexists | done].
Qed.

Lemma timers_ok_createReminder q s :
  timers_ok s → timers_ok (createReminder cfg q s).1.
Proof.
  intros Hok. unfold createReminder.
  destruct (negb (truthy (q_reminderId q))); [done|].
  set (s1 := set_allReminders _ s).
  assert (timers_ok s1) as Hok1 by (by apply (timers_ok_ext s)).
  destruct (q_guardianPhone q) as [| | | |p]; try done.
  destruct (negb (startsWith_plus p)); [done|].
  set (s2 := match JsMap.get _ (activeReminders s1) with
             | Some e => clearTimeout (timer e) s1 | None => s1 end).
  assert (timers_ok s2) as Hok2.
  { subst s2. destruct (JsMap.get _ _); [by apply timers_ok_clearTimeout | done]. }
  match goal with
  | |- context [setTimeout ?cb ?d s2] =>
      pose proof (timers_ok_setTimeout cb d s2 Hok2) as Hok3
  end.
  eapply timers_ok_ext; last exact Hok3; reflexivity.
Qed.

Lemma timers_ok_markTaken id s : timers_ok s → timers_ok (markTaken id s).1.
Proof.
  intros Hok. unfold markTaken.
  destruct (negb (truthy (JStr id))); [done|].
  destruct (JsMap.get (JStr id) (allReminders s)) as [r|]; [|done].
  set (s1 := set_allReminders _ s).
  assert (timers_ok s1) as Hok1 by (by apply (timers_ok_ext s)).
  cbn [fst]. destruct (JsMap.get (JStr id) (activeReminders s1)) as [a|]; [|done].
  by apply (timers_ok_ext (clearTimeout (timer a) s1)), timers_ok_clearTimeout.
Qed.

Lemma timers_ok_fire h s : timers_ok s → timers_ok (fire cfg h s).
Proof.
  intros Hok. unfold fire.
  destruct (timers s !! h) as [t|] eqn:Ht; [|done].
  case_decide; [|done].
  apply timers_ok_timer_callback.
  - by apply timers_ok_clearTimeout.
  - simpl. apply lookup_delete_eq.
  - simpl. destruct (decide (h < next_timer s)%nat) as [|Hge]; [done|].
    destruct (ok_fresh s Hok h) as [_ Hnone]; [lia | congruence].
Qed.

Lemma timers_ok_step s e : timers_ok s → timers_ok (step cfg s e).1.
Proof.
  intros Hok. destruct e as [q|id| |h|h ok|dt]; simpl.
  - by apply timers_ok_createReminder.
  - by apply timers_ok_markTaken.
  - done.
  - by apply timers_ok_fire.
  - apply (timers_ok_ext s); try done; by_cases.
  - by apply (timers_ok_ext s).
Qed.

Lemma reachable_timers_ok s : reachable cfg s → timers_ok s.
Proof.
  apply reachable_ind; [apply timers_ok_init|].
  intros ? ? _. apply timers_ok_step.
Qed.

(** Once an arm's flag is set, no turn clears it and no turn adds an
    attempt of that arm. *)
Lemma step_triggered_stable s e h :
  timers_ok s → triggered s !! h = Some true →
  triggered (step cfg s e).1 !! h = Some true ∧
  attempts_of h (step cfg s e).1 = attempts_of h s.
Proof.
  intros Hok Htr.
  assert (h < next_timer s)%nat as Hlt.
  { destruct (decide (h < next_timer s)%nat) as [|Hge]; [done|].
    destruct (ok_fresh s Hok h) as [Hnone _]; [lia | congruence]. }
  assert (timers s !! h = None) as Hnot.
  { destruct (timers s !! h) eqn:E; [|done].
    rewrite (ok_pending s Hok h) in Htr by eauto. done. }
  destruct e as [q|id| |h'|h' ok|dt]; simpl.
  - split; [|unfold attempts_of; by rewrite createReminder_notifications].
    by_cases; rewrite lookup_insert_ne by lia; done.
  - split; [|unfold attempts_of; by rewrite markTaken_notifications].
    by_cases.
  - done.
  - destruct (timers s !! h') as [t|] eqn:Ht; [|by rewrite fire_not_pending].
    assert (h' ≠ h) as Hne by congruence.
    destruct (decide (deadline t ≤ now s)) as [Hd|Hd].
    + rewrite (fire_pending cfg h' t s Ht Hd).
      assert (triggered (clearTimeout h' s) !! h' ≠ Some true) as Hn'.
      { simpl. rewrite (ok_pending s Hok h') by eauto. done. }
      destruct (timer_callback_first cfg h' (callback t) _ Hn') as (Hg & Hn & _).
      unfold attempts_of. rewrite Hg, Hn, lookup_insert_ne by done.
      rewrite filter_cons_False by (simpl; congruence). done.
    + unfold fire. rewrite Ht. by case_decide.
  - split; [by_cases | unfold attempts_of; by rewrite settle_notifications].
  - done.
Qed.

Lemma run_triggered_stable s evs h :
  timers_ok s → triggered s !! h = Some true →
  triggered (run cfg s evs) !! h = Some true ∧
  attempts_of h (run cfg s evs) = attempts_of h s.
Proof.
  revert s. induction evs as [|e evs IH]; intros s Hok Htr; [done|].
  rewrite run_cons.
  destruct (step_triggered_stable s e h Hok Htr) as [Htr' Hat'].
  destruct (IH _ (timers_ok_step s e Hok) Htr') as [? ?].
  split; [done | congruence].
Qed.

(** A timeout that has left the table (cleared or run) never returns to
    it, and a cleared one never attempts a notification. *)
Lemma step_not_pending_stable s e h :
  timers_ok s → (h < next_timer s)%nat → timers s !! h = None →
  (h < next_timer (step cfg s e).1)%nat ∧
  timers (step cfg s e).1 !! h = None ∧
  attempts_of h (step cfg s e).1 = attempts_of h s.
Proof.
  intros Hok Hlt Hnone.
  destruct e as [q|id| |h'|h' ok|dt]; simpl.
  - split_and!; [| |unfold attempts_of; by rewrite createReminder_notifications];
      by_cases; rewrite ?lookup_insert_ne by lia;
      rewrite ?lookup_delete_None; auto.
  - split_and!; [| |unfold attempts_of; by rewrite markTaken_notifications];
      by_cases; rewrite ?lookup_delete_None; auto.
  - done.
  - destruct (timers s !! h') as [t|] eqn:Ht; [|by rewrite fire_not_pending].
    assert (h' ≠ h) as Hne by congruence.
    destruct (decide (deadline t ≤ now s)) as [Hd|Hd].
    + rewrite (fire_pending cfg h' t s Ht Hd).
      assert (triggered (clearTimeout h' s) !! h' ≠ Some true) as Hn'.
      { simpl. rewrite (ok_pending s Hok h') by eauto. done. }
      destruct (timer_callback_first cfg h' (callback t) _ Hn') as (_ & Hn & Htm & Hx).
      unfold attempts_of. rewrite Hn, Htm, Hx.
      rewrite filter_cons_False by (simpl; congruence). simpl.
      rewrite lookup_delete_None. auto.
    + unfold fire. rewrite Ht. by case_decide.
  - split_and!; [| |unfold attempts_of; by rewrite settle_notifications]; by_cases.
  - done.
Qed.

Lemma run_not_pending_stable s evs h :
  timers_ok s → (h < next_timer s)%nat → timers s !! h = None →
  timers (run cfg s evs) !! h = None ∧
  attempts_of h (run cfg s evs) = attempts_of h s.
Proof.
  revert s. induction evs as [|e evs IH]; intros s Hok Hlt Hnone; [done|].
  rewrite run_cons.
  destruct (step_not_pending_stable s e h Hok Hlt Hnone) as (Hlt' & Hnone' & Hat').
  destruct (IH _ (timers_ok_step s e Hok) Hlt' Hnone') as [? ?].
  split; [done | congruence].
Qed.
End Reachability.

(** ** Facts on the store and on the two maps *)

Section StoreFacts.
Variable cfg : config.
Implicit Types (s : state) (h : nat) (e : event) (q : request).

(** *** Shared facts on the store *)

Lemma step_keys_prefix s e :
  JsMap.keys (allReminders s) `prefix_of` JsMap.keys (allReminders (step cfg s e).1).
Proof.
  destruct e as [q|id| |h|h ok|dt]; simpl; try done.
  - rewrite createReminder_allReminders.
    destruct (truthy _); [apply keys_set_prefix | done].
  - rewrite markTaken_allReminders.
    destruct (JsMap.get _ _); [|done].
    destruct (truthy _); [apply keys_set_prefix | done].
  - by rewrite fire_allReminders.
  - by rewrite settle_allReminders.
Qed.

Lemma run_keys_prefix s evs :
  JsMap.keys (allReminders s) `prefix_of` JsMap.keys (allReminders (run cfg s evs)).
Proof.
  revert s. induction evs as [|e evs IH]; intros s; [done|].
  rewrite run_cons. etrans; [apply (step_keys_prefix s e) | apply IH].
Qed.

Lemma created_key_stays q s evs :
  truthy (q_reminderId q) = true →
  q_reminderId q ∈ JsMap.keys (allReminders (run cfg (createReminder cfg q s).1 evs)).
Proof.
  intros Hid.
  destruct (run_keys_prefix (createReminder cfg q s).1 evs) as [k ->].
  apply elem_of_app. left. apply get_keys.
  rewrite createReminder_allReminders, Hid, get_set_eq. eauto.
Qed.

Lemma step_status_taken s e id :
  status_of id s = Some Taken →
  (∀ q, e = PostReminder q → q_reminderId q ≠ id) →
  status_of id (step cfg s e).1 = Some Taken.
Proof.
  unfold status_of. intros Hst Hne.
  destruct e as [q|id'| |h|h ok|dt]; simpl; try done.
  - rewrite createReminder_allReminders.
    destruct (truthy _); [|done].
    rewrite get_set_ne; [done|]. intros ->. by apply (Hne q).
  - rewrite markTaken_allReminders.
    destruct (JsMap.get (JStr id') _); [|done].
    destruct (truthy _); [|done].
    rewrite get_set. by case_decide.
  - by rewrite fire_allReminders.
  - by rewrite settle_allReminders.
Qed.

(** *** The invariant between the two maps *)

Lemma createReminder_armed q s id a :
  JsMap.get id (activeReminders (createReminder cfg q s).1) = Some a →
  (id = q_reminderId q ∧ truthy (q_reminderId q) = true) ∨
  JsMap.get id (activeReminders s) = Some a.
Proof.
  handlers. repeat case_match; simplify_eq/=; eauto;
    rewrite get_set; case_decide; simplify_eq; eauto;
    destruct (truthy (q_reminderId q)); eauto; done.
Qed.

Lemma markTaken_armed id' s id a :
  JsMap.get id (activeReminders (markTaken id' s).1) = Some a →
  JsMap.get id (activeReminders s) = Some a ∧
  (truthy (JStr id') = true → is_Some (JsMap.get (JStr id') (allReminders s)) →
   id ≠ JStr id').
Proof.
  intros Hget. unfold markTaken in Hget.
  destruct (truthy (JStr id')) eqn:Et; simpl in Hget; [|done].
  destruct (JsMap.get (JStr id') (allReminders s)) as [r|] eqn:Er;
    simpl in Hget; [|split; [done | by intros _ [? ?]]].
  destruct (JsMap.get (JStr id') (activeReminders s)) as [a'|] eqn:Ea;
    simpl in Hget.
  - rewrite get_remove in Hget. by case_decide.
  - split; [done|]. intros _ _ ->. congruence.
Qed.

Lemma fire_armed h s id a :
  JsMap.get id (activeReminders (fire cfg h s)) = Some a →
  JsMap.get id (activeReminders s) = Some a.
Proof. by_cases; rewrite get_remove; destruct (decide (id = _)); by intros. Qed.

Lemma settle_armed h ok s id a :
  JsMap.get id (activeReminders (settle h ok s)) = Some a →
  JsMap.get id (activeReminders s) = Some a.
Proof. by_cases; rewrite get_remove; destruct (decide (id = _)); by intros. Qed.

Lemma armed_are_active_step s e :
  armed_are_active s → armed_are_active (step cfg s e).1.
Proof.
  intros Hinv id a Hget. destruct e as [q|id'| |h|h ok|dt]; simpl in *.
  - rewrite createReminder_allReminders.
    apply createReminder_armed in Hget as [[-> Hid]|Hget].
    + rewrite Hid, get_set_eq. eauto.
    + destruct (Hinv id a Hget) as (r & Hr & Hact).
      destruct (truthy _); [|eauto].
      rewrite get_set. case_decide; eauto.
  - rewrite markTaken_allReminders.
    apply markTaken_armed in Hget as [Hget Hne].
    destruct (Hinv id a Hget) as (r & Hr & Hact).
    destruct (JsMap.get (JStr id') (allReminders s)) eqn:E; [|eauto].
    destruct (truthy (JStr id')) eqn:Et; [|eauto].
    rewrite get_set_ne by eauto. eauto.
  - eauto.
  - rewrite fire_allReminders. apply fire_armed in Hget. eauto.
  - rewrite settle_allReminders. apply settle_armed in Hget. eauto.
  - eauto.
Qed.

Lemma reachable_armed_are_active s : reachable cfg s → armed_are_active s.
Proof.
  apply reachable_ind; [intros ? ? [=]|].
  intros ? ? _. apply armed_are_active_step.
Qed.
End StoreFacts.

(** ** Cancellation through the entry in [activeReminders]

    Both routes find the timeout to clear through the entry stored under
    the id.  When that entry records a pending timeout, the timeout is
    cleared for good. *)
Section Cancellation.
Variable cfg : config.
Implicit Types (s : state) (h : nat) (e : event) (q : request).

Lemma pending_known s h :
  timers_ok s → is_Some (timers s !! h) →
  (h < next_timer s)%nat ∧ attempts_of h s = [].
Proof.
  intros Hok Hp. split.
  - destruct (decide (h < next_timer s)%nat) as [|Hge]; [done|].
    destruct (ok_fresh s Hok h) as [_ Hnone]; [lia|].
    rewrite Hnone in Hp. by destruct Hp.
  - apply (ok_untriggered s Hok). by rewrite (ok_pending s Hok h Hp).
Qed.

(** The taken route clears the timeout recorded for the id; its callback
    never runs afterwards. *)
Lemma markTaken_cancels_recorded_timer s id a evs :
  reachable cfg s → id ≠ "" →
  JsMap.get (JStr id) (activeReminders s) = Some a →
  is_Some (timers s !! timer a) →
  timers (markTaken id s).1 !! timer a = None ∧
  JsMap.has (JStr id) (activeReminders (markTaken id s).1) = false ∧
  timers (run cfg (markTaken id s).1 evs) !! timer a = None ∧
  attempts_of (timer a) (run cfg (markTaken id s).1 evs) = [].
Proof.
  intros Hreach Hid Ha Hp.
  pose proof (reachable_timers_ok cfg s Hreach) as Hok.
  destruct (pending_known s (timer a) Hok Hp) as [Hlt Hnone].
  destruct (reachable_armed_are_active cfg s Hreach _ _ Ha) as (r & Hr & _).
  assert (truthy (JStr id) = true) as Ht
    by (simpl; by apply negb_true_iff, String.eqb_neq).
  assert (timers (markTaken id s).1 = delete (timer a) (timers s) ∧
          next_timer (markTaken id s).1 = next_timer s ∧
          notifications (markTaken id s).1 = notifications s ∧
          activeReminders (markTaken id s).1
            = JsMap.remove (JStr id) (activeReminders s)) as (Htm & Hx & Hn & Hact).
  { unfold markTaken. rewrite Ht, Hr. simpl. by rewrite Ha. }
  assert (timers (markTaken id s).1 !! timer a = None) as Hgone
    by (rewrite Htm; apply lookup_delete_eq).
  destruct (run_not_pending_stable cfg (markTaken id s).1 evs (timer a))
    as [Hgone' Hat']; [by apply timers_ok_markTaken | by rewrite Hx | done |].
  split_and!; [done| |done|].
  - unfold JsMap.has. rewrite Hact, get_remove. by destruct (decide _).
  - rewrite Hat'. unfold attempts_of. by rewrite Hn.
Qed.

End Cancellation.

(** ** Properties of the reminder routes *)

Section Claims.
Variable cfg : config.
Implicit Types (s : state) (h : nat) (e : event) (q : request).

(** C1.  A pending timeout whose deadline has passed and that the event
    loop runs makes exactly one notification attempt, for the reminder
    and phone it was armed with; the attempt reaches the SMS client iff
    the client is initialised.  Before the run the arm has made no
    attempt; the run sets the arm's [triggered] flag; and in every later
    state, whatever turns follow, the arm's attempts are still that single
    one, the timeout is no longer pending, and executing the arm's
    callback again finds the flag set and changes nothing. *)
Theorem C1_armed_timer_notifies_exactly_once s h t evs :
  reachable cfg s → timers s !! h = Some t → deadline t ≤ now s →
  let s1 := (step cfg s (TimerFires h)).1 in
  let s2 := run cfg s1 evs in
  let n :=
    {| n_timer := h; n_reminderId := c_reminderId (callback t);
       n_to := c_guardianPhone (callback t);
       n_medicine := c_medicineName (callback t);
       n_time := c_time (callback t); n_at := now s;
       n_sent := twilioClient cfg |} in
  attempts_of h s = [] ∧
  triggered s1 !! h = Some true ∧
  attempts_of h s1 = [n] ∧
  attempts_of h s2 = [n] ∧
  timers s2 !! h = None ∧
  timer_callback cfg h (callback t) s2 = s2.
Proof.
  intros Hreach Ht Hd s1 s2 n.
  pose proof (reachable_timers_ok cfg s Hreach) as Hok.
  assert (triggered s !! h = Some false) as Hflag
    by (apply (ok_pending s Hok); eauto).
  assert (attempts_of h s = []) as Hnone
    by (apply (ok_untriggered s Hok); congruence).
  assert (triggered (clearTimeout h s) !! h ≠ Some true) as Hflag'
    by (simpl; congruence).
  destruct (timer_callback_first cfg h (callback t) _ Hflag')
    as (Hg & Hn & Htm & Hx).
  assert (s1 = timer_callback cfg h (callback t) (clearTimeout h s)) as Hs1
    by (subst s1; simpl; by apply fire_pending).
  assert (triggered s1 !! h = Some true) as Htr1
    by (rewrite Hs1, Hg; apply lookup_insert_eq).
  assert (attempts_of h s1 = [n]) as Hat1.
  { unfold attempts_of. rewrite Hs1, Hn.
    rewrite filter_cons_True by done. f_equal. exact Hnone. }
  assert (timers_ok s1) as Hok1 by (subst s1; by apply timers_ok_step).
  destruct (run_triggered_stable cfg s1 evs h Hok1 Htr1) as [Htr2 Hat2].
  assert (h < next_timer s1)%nat as Hlt.
  { destruct (decide (h < next_timer s1)%nat) as [|Hge]; [done|].
    destruct (ok_fresh s1 Hok1 h) as [Hfresh _]; [lia | congruence]. }
  assert (timers s1 !! h = None) as Hgone
    by (rewrite Hs1, Htm; simpl; apply lookup_delete_eq).
  destruct (run_not_pending_stable cfg s1 evs h Hok1 Hlt Hgone) as [Hgone2 _].
  split_and!; try done.
  - fold s2 in Hat2. congruence.
  - by apply timer_callback_triggered.
Qed.

(** C3 (as amended).  On a reminder that is already taken, a further
    call of the taken route answers 200 with status taken and leaves the
    record taken with every other field as it was, but it assigns
    [takenAt] again: the record and the response carry the time of this
    call, not the time of the first transition. *)
Theorem C3_repeated_markTaken_overwrites_takenAt s id r :
  id ≠ "" →
  JsMap.get (JStr id) (allReminders s) = Some r → rstatus r = Taken →
  (markTaken id s).2 = Responds 200 (MarkedTaken id Taken (Some (now s))) ∧
  JsMap.get (JStr id) (allReminders (markTaken id s).1) =
    Some {| medicineName := medicineName r; guardianPhone := guardianPhone r;
            time := time r; rstatus := Taken; createdAt := createdAt r;
            takenAt := Some (now s) |} ∧
  status_of (JStr id) (markTaken id s).1 = Some Taken ∧
  takenAt_of (JStr id) (markTaken id s).1 = Some (now s).
Proof.
  intros Hid Hr _.
  assert (truthy (JStr id) = true) as Ht.
  { simpl. apply negb_true_iff, String.eqb_neq. exact Hid. }
  assert (JsMap.get (JStr id) (allReminders (markTaken id s).1) =
    Some {| medicineName := medicineName r; guardianPhone := guardianPhone r;
            time := time r; rstatus := Taken; createdAt := createdAt r;
            takenAt := Some (now s) |}) as Hget
    by (by rewrite markTaken_allReminders, Hr, Ht, get_set_eq).
  split_and!; [|done|unfold status_of; by rewrite Hget
              |unfold takenAt_of; by rewrite Hget].
  unfold markTaken. rewrite Ht, Hr. reflexivity.
Qed.

(** C4 (as amended).  Once a record is taken it stays taken through every
    sequence of turns (taken route, listing, timer firing, SMS settling,
    passage of time, creation of other ids) that contains no create
    request for the same id; a create request for the same id overwrites
    the record and puts its status back to active. *)
Theorem C4_taken_reverts_only_by_recreation s id evs :
  status_of id s = Some Taken →
  (∀ q, PostReminder q ∈ evs → q_reminderId q ≠ id) →
  status_of id (run cfg s evs) = Some Taken ∧
  (∀ q, q_reminderId q = id → truthy id = true →
        status_of id (step cfg (run cfg s evs) (PostReminder q)).1 = Some Active).
Proof.
  intros Hst Hne. split.
  - revert s Hst. induction evs as [|e evs IH]; intros s Hst; [done|].
    rewrite run_cons. apply IH.
    + intros q Hq. apply Hne. by right.
    + apply step_status_taken; [done|]. intros q ->. apply Hne. by left.
  - intros q Hq Hid. unfold status_of. simpl.
    rewrite createReminder_allReminders, Hq, Hid, get_set_eq. reflexivity.
Qed.

(** C5.  A create request with a truthy reminderId whose guardianPhone is
    a string that does not start with '+' is answered 400 (invalid phone
    format); the record has by then been written to [allReminders] with
    status active, and it stays in the store through all later turns; the
    call arms no timer: the timeout table, [activeReminders], the handle
    counter and the notification log are as before. *)
Theorem C5_invalid_phone_rejected_after_store_write q s p :
  truthy (q_reminderId q) = true →
  q_guardianPhone q = JStr p → startsWith_plus p = false →
  let s' := (createReminder cfg q s).1 in
  (createReminder cfg q s).2 = Responds 400 InvalidPhoneFormat ∧
  JsMap.get (q_reminderId q) (allReminders s') =
    Some {| medicineName := q_medicineName q; guardianPhone := JStr p;
            time := q_time q; rstatus := Active; createdAt := now s;
            takenAt := None |} ∧
  (∀ evs, q_reminderId q ∈ JsMap.keys (allReminders (run cfg s' evs))) ∧
  timers s' = timers s ∧ activeReminders s' = activeReminders s ∧
  next_timer s' = next_timer s ∧ notifications s' = notifications s.
Proof.
  intros Hid Hp Hplus s'. split_and!.
  - unfold createReminder. by rewrite Hid, Hp, Hplus.
  - subst s'. by rewrite createReminder_allReminders, Hid, get_set_eq, Hp.
  - intros evs. by apply created_key_stays.
  - subst s'. unfold createReminder. by rewrite Hid, Hp, Hplus.
  - subst s'. unfold createReminder. by rewrite Hid, Hp, Hplus.
  - subst s'. unfold createReminder. by rewrite Hid, Hp, Hplus.
  - subst s'. unfold createReminder. by rewrite Hid, Hp, Hplus.
Qed.

(** C7.  In every state reachable by create, taken, list, timer firing,
    SMS settling and the passage of time, every id present in
    [activeReminders] has a record in [allReminders] whose status is
    active. *)
Theorem C7_armed_ids_are_active_in_store s id :
  reachable cfg s → JsMap.has id (activeReminders s) = true →
  ∃ r, JsMap.get id (allReminders s) = Some r ∧ rstatus r = Active.
Proof.
  intros Hreach Hhas. apply has_get in Hhas as [a Ha].
  exact (reachable_armed_are_active cfg s Hreach id a Ha).
Qed.

(** C8.  The list route answers 200 with the entries of [allReminders]
    and changes nothing.  No turn removes or reorders a key of
    [allReminders]: the keys before any sequence of turns are a prefix of
    the keys after it, so every id ever created (with a truthy id) is
    listed from then on, in creation order.  After creating "a", then
    "b", then marking "a" taken, the list is "a" with status taken
    followed by "b" with status active. *)
Theorem C8_list_is_complete_in_creation_order :
  (∀ s, listReminders s = (s, Responds 200 (Reminders (allReminders s)))) ∧
  (∀ s evs,
     JsMap.keys (allReminders s)
       `prefix_of` JsMap.keys (allReminders (run cfg s evs))) ∧
  (∀ s q evs, truthy (q_reminderId q) = true →
     q_reminderId q
       ∈ JsMap.keys (allReminders (run cfg (step cfg s (PostReminder q)).1 evs))) ∧
  (∀ ma pa ta mb pb tb,
     (step cfg
        (run cfg init
           [PostReminder (Request (JStr "a") ma pa ta);
            PostReminder (Request (JStr "b") mb pb tb);
            PostTaken "a"])
        GetReminders).2
     = Responds 200
         (Reminders
            [(JStr "a", Reminder ma pa ta Taken 0 (Some 0));
             (JStr "b", Reminder mb pb tb Active 0 None)])).
Proof.
  split_and!.
  - done.
  - apply run_keys_prefix.
  - intros s q evs Hid. by apply created_key_stays.
  - intros ma pa ta mb pb tb. simpl. do 2 f_equal.
    rewrite markTaken_allReminders, !createReminder_allReminders. simpl.
    assert (∀ q s, now (createReminder cfg q s).1 = now s) as Hnow
      by (intros; by_cases).
    rewrite !Hnow. reflexivity.
Qed.

(** C9.  A create request with a truthy reminderId and no guardianPhone
    field gets neither a 400 response nor a normal completion: the
    handler throws a TypeError at the phone-format check.  The record has
    by then been written to [allReminders] with status active, and no
    timer has been armed. *)
Theorem C9_missing_phone_throws_after_store_write q s :
  truthy (q_reminderId q) = true → q_guardianPhone q = JUndefined →
  let s' := (createReminder cfg q s).1 in
  (createReminder cfg q s).2 = ThrowsTypeError ∧
  JsMap.get (q_reminderId q) (allReminders s') =
    Some {| medicineName := q_medicineName q; guardianPhone := JUndefined;
            time := q_time q; rstatus := Active; createdAt := now s;
            takenAt := None |} ∧
  timers s' = timers s ∧ activeReminders s' = activeReminders s ∧
  next_timer s' = next_timer s.
Proof.
  intros Hid Hp s'. split_and!.
  - unfold createReminder. by rewrite Hid, Hp.
  - subst s'. by rewrite createReminder_allReminders, Hid, get_set_eq, Hp.
  - subst s'. unfold createReminder. by rewrite Hid, Hp.
  - subst s'. unfold createReminder. by rewrite Hid, Hp.
  - subst s'. unfold createReminder. by rewrite Hid, Hp.
Qed.

(** C10.  Neither the run of a timer callback nor the later settling of
    its SMS changes [allReminders]: every record keeps its status and all
    its other fields, and the list route answers the same before and
    after.  What these turns do to the two maps is at most the removal
    from [activeReminders] of the id the callback was armed for. *)
Theorem C10_firing_leaves_store_unchanged s h ok :
  allReminders (step cfg s (TimerFires h)).1 = allReminders s ∧
  allReminders (step cfg s (SmsSettles h ok)).1 = allReminders s ∧
  (listReminders (step cfg s (TimerFires h)).1).2 = (listReminders s).2 ∧
  (listReminders (step cfg s (SmsSettles h ok)).1).2 = (listReminders s).2 ∧
  (∀ id, status_of id (step cfg s (TimerFires h)).1 = status_of id s) ∧
  (∀ id, status_of id (step cfg s (SmsSettles h ok)).1 = status_of id s) ∧
  (activeReminders (step cfg s (TimerFires h)).1 = activeReminders s ∨
   ∃ t, timers s !! h = Some t ∧
        activeReminders (step cfg s (TimerFires h)).1
        = JsMap.remove (c_reminderId (callback t)) (activeReminders s)) ∧
  (activeReminders (step cfg s (SmsSettles h ok)).1 = activeReminders s ∨
   ∃ cb, awaiting s !! h = Some cb ∧
         activeReminders (step cfg s (SmsSettles h ok)).1
         = JsMap.remove (c_reminderId cb) (activeReminders s)).
Proof.
  simpl. unfold status_of, listReminders. simpl.
  rewrite fire_allReminders, settle_allReminders.
  split_and!; try done.
  - by_cases.
  - by_cases.
Qed.

End Claims.

(** In the development configuration, the timer of "r1" runs at its
    deadline; running it again and settling the SMS add nothing. *)
Lemma C1_armed_timer_notifies_exactly_once_witness :
  attempts_of 0
    (run dev
       (step dev (run dev init [PostReminder r1; ClockAdvances 10000])
          (TimerFires 0)).1
       [TimerFires 0; SmsSettles 0 true; ClockAdvances 5; TimerFires 0])
  = [ {| n_timer := 0; n_reminderId := JStr "r1"; n_to := JStr "+15551234567";
         n_medicine := JStr "aspirin"; n_time := JStr "08:00"; n_at := 10000;
         n_sent := true |} ].
Proof.
  refine (proj1 (proj2 (proj2 (proj2
    (C1_armed_timer_notifies_exactly_once dev
       (run dev init [PostReminder r1; ClockAdvances 10000]) 0%nat
       (MkTimeout 10000
          (Closure (JStr "r1") (JStr "aspirin") (JStr "+15551234567")
             (JStr "08:00") 0))
       [TimerFires 0; SmsSettles 0 true; ClockAdvances 5; TimerFires 0]
       _ _ _))))).
  - by eexists.
  - reflexivity.
  - simpl. lia.
Defined.

(** ** The claims on concrete runs *)

(** Without an SMS client the callback throws inside its [try] block: the
    attempt does not reach [messages.create], and [finally] removes the
    entry in the same turn, with nothing left suspended. *)
Example no_client_attempt_fails_in_same_turn :
  let s := run no_sms init [PostReminder r1; ClockAdvances 10000; TimerFires 0] in
  notifications s
    = [ {| n_timer := 0; n_reminderId := JStr "r1"; n_to := JStr "+15551234567";
           n_medicine := JStr "aspirin"; n_time := JStr "08:00"; n_at := 10000;
           n_sent := false |} ] ∧
  activeReminders s = [] ∧ awaiting s = ∅ ∧ status_of (JStr "r1") s = Some Active.
Proof. vm_compute. split_and!; reflexivity. Qed.

(** In production the delay is five minutes: after 10 s the timeout is not
    due, and the event loop does not run it. *)
Example production_timer_not_due_after_10s :
  let s := run production init [PostReminder r1; ClockAdvances 10000; TimerFires 0] in
  TIMER_DURATION production = 300000 ∧
  notifications s = [] ∧
  deadline <$> timers s !! 0%nat = Some 300000.
Proof. vm_compute. split_and!; reflexivity. Qed.

(** C2.  Run [rearm_during_send] in the development configuration (delay
    10 s).  At 15 s the second arm of "r1" (timeout 1, due at 20 s) is
    pending, but the [finally] block of the first arm's callback has
    deleted the entry of "r1" from [activeReminders].  The taken route
    then answers 200 and marks the record taken, finds no entry, and
    clears nothing: timeout 1 is still pending, and when it runs at 20 s
    the alert for "r1" is sent. *)
Theorem C2_taken_before_deadline_still_alerts :
  let s := run dev init (rearm_during_send ++ [ClockAdvances 5000]) in
  let s' := (step dev s (PostTaken "r1")).1 in
  now s = 15000 ∧
  timers s !! 1%nat = Some (MkTimeout 20000 r1_callback) ∧
  JsMap.has (JStr "r1") (activeReminders s) = false ∧
  (step dev s (PostTaken "r1")).2
    = Responds 200 (MarkedTaken "r1" Taken (Some 15000)) ∧
  status_of (JStr "r1") s' = Some Taken ∧
  timers s' !! 1%nat = Some (MkTimeout 20000 r1_callback) ∧
  attempts_of 1 (run dev s' [ClockAdvances 5000; TimerFires 1])
    = [r1_alert 1 20000].
Proof. vm_compute. split_and!; reflexivity. Qed.

(** The plain scenario: "r1" is created at 0 s with the 10 s delay and
    marked taken at 5 s.  The taken route answers 200, the list shows the
    record as taken, and whatever turns follow, timeout 0 is never pending
    again and never attempts a notification. *)
Example taken_at_5s_cancels_r1 (evs : list event) :
  let s := run dev init [PostReminder r1; ClockAdvances 5000] in
  (markTaken "r1" s).2 = Responds 200 (MarkedTaken "r1" Taken (Some 5000)) ∧
  (listReminders (markTaken "r1" s).1).2
    = Responds 200
        (Reminders
           [(JStr "r1",
             Reminder (JStr "aspirin") (JStr "+15551234567") (JStr "08:00")
               Taken 0 (Some 5000))]) ∧
  timers (run dev (markTaken "r1" s).1 evs) !! 0%nat = None ∧
  attempts_of 0 (run dev (markTaken "r1" s).1 evs) = [].
Proof.
  intros s.
  destruct (markTaken_cancels_recorded_timer dev s "r1"
              (ActiveEntry 0 (JStr "aspirin") (JStr "+15551234567")
                 (JStr "08:00") 0 10000) evs)
    as (_ & _ & Hgone & Hnone); [by eexists | done | done | by eexists |].
  split_and!; [reflexivity | reflexivity | exact Hgone | exact Hnone].
Qed.

(** C3 (counterexample).  "r1" is marked taken at 5 s and again at 6 s:
    the second call answers 200 and the record's [takenAt] moves from 5 s
    to 6 s. *)
Lemma C3_second_markTaken_changes_takenAt :
  let s1 := run dev init [PostReminder r1; ClockAdvances 5000; PostTaken "r1"] in
  let s2 := (step dev s1 (ClockAdvances 1000)).1 in
  status_of (JStr "r1") s1 = Some Taken ∧
  takenAt_of (JStr "r1") s1 = Some 5000 ∧
  (markTaken "r1" s2).2 = Responds 200 (MarkedTaken "r1" Taken (Some 6000)) ∧
  takenAt_of (JStr "r1") (markTaken "r1" s2).1 = Some 6000 ∧
  takenAt_of (JStr "r1") (markTaken "r1" s2).1 ≠ takenAt_of (JStr "r1") s1.
Proof. vm_compute. split_and!; try reflexivity. discriminate. Qed.

Lemma C3_repeated_markTaken_overwrites_takenAt_witness :
  takenAt_of (JStr "r1")
    (markTaken "r1"
       (run dev init
          [PostReminder r1; ClockAdvances 5000; PostTaken "r1";
           ClockAdvances 1000])).1
  = Some 6000.
Proof.
  refine (proj2 (proj2 (proj2
    (C3_repeated_markTaken_overwrites_takenAt
       (run dev init
          [PostReminder r1; ClockAdvances 5000; PostTaken "r1";
           ClockAdvances 1000])
       "r1"
       (Reminder (JStr "aspirin") (JStr "+15551234567") (JStr "08:00") Taken 0
          (Some 5000))
       _ _ _)))).
  - discriminate.
  - reflexivity.
  - reflexivity.
Defined.

(** C4 (counterexample).  "r1" is created and marked taken; creating it
    again makes its status active. *)
Lemma C4_recreation_reverts_taken_to_active :
  status_of (JStr "r1") (run dev init [PostReminder r1; PostTaken "r1"])
    = Some Taken ∧
  status_of (JStr "r1")
    (run dev init [PostReminder r1; PostTaken "r1"; PostReminder r1])
    = Some Active.
Proof. vm_compute. split; reflexivity. Qed.

Lemma C4_taken_reverts_only_by_recreation_witness :
  status_of (JStr "r1")
    (run dev (run dev init [PostReminder r1; PostTaken "r1"])
       [PostTaken "r1"; GetReminders;
        PostReminder (reminder_request "r2" (JStr "+15550000000"));
        ClockAdvances 10000; TimerFires 0; TimerFires 1])
  = Some Taken.
Proof.
  refine (proj1
    (C4_taken_reverts_only_by_recreation dev
       (run dev init [PostReminder r1; PostTaken "r1"]) (JStr "r1")
       [PostTaken "r1"; GetReminders;
        PostReminder (reminder_request "r2" (JStr "+15550000000"));
        ClockAdvances 10000; TimerFires 0; TimerFires 1]
       _ _)).
  - reflexivity.
  - intros q Hq.
    repeat (apply elem_of_cons in Hq as [Hq|Hq]; [by simplify_eq|]).
    by apply elem_of_nil in Hq.
Defined.

(** The scenario of the specification: id "r2", phone "15551234567". *)
Lemma C5_invalid_phone_rejected_after_store_write_witness :
  (createReminder dev (reminder_request "r2" (JStr "15551234567")) init).2
    = Responds 400 InvalidPhoneFormat ∧
  JsMap.get (JStr "r2")
    (allReminders
       (createReminder dev (reminder_request "r2" (JStr "15551234567")) init).1)
    = Some (Reminder (JStr "aspirin") (JStr "15551234567") (JStr "08:00")
              Active 0 None).
Proof.
  pose proof
    (C5_invalid_phone_rejected_after_store_write dev
       (reminder_request "r2" (JStr "15551234567")) init "15551234567"
       eq_refl eq_refl eq_refl) as (Hresp & Hrec & _).
  split; [exact Hresp | exact Hrec].
Defined.

(** C6.  Run [rearm_during_send], then create "r1" once more at 11 s.  The
    request is answered 200, yet it finds no entry of "r1" in
    [activeReminders] (the first arm's [finally] deleted the one of the
    second arm) and so clears nothing: timeouts 1 and 2 are both pending
    for "r1".  Both run, and "r1" gets an alert from the older arm at 20 s
    and another from the newest arm at 21 s. *)
Theorem C6_rearm_leaves_older_timer_pending :
  let s0 := run dev init (rearm_during_send ++ [ClockAdvances 1000]) in
  let s := (step dev s0 (PostReminder r1)).1 in
  (step dev s0 (PostReminder r1)).2
    = Responds 200 (TimerSet (JStr "r1") 11000 21000) ∧
  JsMap.has (JStr "r1") (activeReminders s0) = false ∧
  timers s0 !! 1%nat = Some (MkTimeout 20000 r1_callback) ∧
  pending_for (JStr "r1") s = {[1%nat; 2%nat]} ∧
  timers s !! 2%nat
    = Some (MkTimeout 21000
              (Closure (JStr "r1") (JStr "aspirin") (JStr "+15551234567")
                 (JStr "08:00") 11000)) ∧
  timers s !! 1%nat = Some (MkTimeout 20000 r1_callback) ∧
  timer <$> JsMap.get (JStr "r1") (activeReminders s) = Some 2%nat ∧
  attempts_for (JStr "r1")
    (run dev s
       [ClockAdvances 9000; TimerFires 1; ClockAdvances 1000; TimerFires 2])
    = [r1_alert 2 21000; r1_alert 1 20000; r1_alert 0 10000].
Proof. vm_compute. split_and!; reflexivity. Qed.

Lemma C7_armed_ids_are_active_in_store_witness :
  ∃ r, JsMap.get (JStr "r1") (allReminders (run dev init [PostReminder r1]))
       = Some r ∧ rstatus r = Active.
Proof.
  apply (C7_armed_ids_are_active_in_store dev
           (run dev init [PostReminder r1]) (JStr "r1")).
  - by eexists.
  - reflexivity.
Defined.

Lemma C8_list_is_complete_in_creation_order_witness :
  JStr "r1"
    ∈ JsMap.keys
        (allReminders
           (run dev (step dev init (PostReminder r1)).1
              [PostTaken "r1"; ClockAdvances 10000; TimerFires 0])).
Proof.
  apply (proj1 (proj2 (proj2 (C8_list_is_complete_in_creation_order dev)))
           init r1 [PostTaken "r1"; ClockAdvances 10000; TimerFires 0]).
  reflexivity.
Defined.

Lemma C9_missing_phone_throws_after_store_write_witness :
  (createReminder dev (reminder_request "r3" JUndefined) init).2
    = ThrowsTypeError ∧
  JsMap.get (JStr "r3")
    (allReminders (createReminder dev (reminder_request "r3" JUndefined) init).1)
    = Some (Reminder (JStr "aspirin") JUndefined (JStr "08:00") Active 0 None).
Proof.
  pose proof
    (C9_missing_phone_throws_after_store_write dev
       (reminder_request "r3" JUndefined) init eq_refl eq_refl)
    as (Hresp & Hrec & _).
  split; [exact Hresp | exact Hrec].
Defined.

(** ** Further properties of the reminder routes *)

Section MoreMapFacts.
Context {V : Type}.
Implicit Types (m : list (jsval * V)) (k : jsval) (v : V).

Lemma get_elem_of k v m : JsMap.get k m = Some v → (k, v) ∈ m.
Proof.
  induction m as [|[k0 v0] m IH]; simpl; [done|].
  destruct (decide (k = k0)) as [->|Hne].
  - intros [= ->]. left.
  - intros H. right. by apply IH.
Qed.

Lemma Forall_set (P : jsval * V → Prop) k v m :
  Forall P m → P (k, v) → Forall P (JsMap.set k v m).
Proof.
  intros Hm Hkv. induction Hm as [|[k0 v0] m H0 Hm IH]; simpl.
  - by constructor.
  - destruct (decide (k = k0)); constructor; done.
Qed.

Lemma NoDup_keys_set k v m :
  NoDup (JsMap.keys m) → NoDup (JsMap.keys (JsMap.set k v m)).
Proof.
  intros Hnd. rewrite keys_set.
  destruct (JsMap.has k m) eqn:Hhas; [done|].
  apply NoDup_app. split_and!; [done| |apply NoDup_singleton].
  intros k' Hk' Hin. apply list_elem_of_singleton in Hin as ->.
  apply get_keys, has_get in Hk'. congruence.
Qed.

(** Replacing the value of a key that is present keeps every key where it
    is. *)
Lemma keys_set_present k v m :
  k ∈ JsMap.keys m → JsMap.keys (JsMap.set k v m) = JsMap.keys m.
Proof.
  intros Hin. rewrite keys_set.
  apply get_keys, has_get in Hin. by rewrite Hin.
Qed.
End MoreMapFacts.

Section HandlerEquations.
Variable cfg : config.
Implicit Types (s : state) (h : nat) (e : event) (q : request).

Lemma truthy_JStr id : truthy (JStr id) = true ↔ id ≠ "".
Proof. simpl. rewrite negb_true_iff. apply String.eqb_neq. Qed.

(** The create route, case by case. *)
Lemma createReminder_missing_id q s :
  truthy (q_reminderId q) = false →
  createReminder cfg q s = (s, Responds 400 MissingReminderId).
Proof. intros H. unfold createReminder. by rewrite H. Qed.

Lemma createReminder_not_armed q s :
  truthy (q_reminderId q) = true →
  (∀ p, q_guardianPhone q = JStr p → startsWith_plus p = false) →
  (createReminder cfg q s).1 =
    set_allReminders
      (JsMap.set (q_reminderId q)
         (Reminder (q_medicineName q) (q_guardianPhone q) (q_time q)
            Active (now s) None)
         (allReminders s)) s.
Proof.
  intros Hid Hp. unfold createReminder. rewrite Hid. simpl.
  destruct (q_guardianPhone q) as [| | | |p]; try done.
  by rewrite (Hp p eq_refl).
Qed.

Lemma createReminder_armed_eq q s p :
  truthy (q_reminderId q) = true →
  q_guardianPhone q = JStr p → startsWith_plus p = true →
  createReminder cfg q s =
    ({| now := now s;
        allReminders :=
          JsMap.set (q_reminderId q)
            (Reminder (q_medicineName q) (JStr p) (q_time q) Active (now s) None)
            (allReminders s);
        activeReminders :=
          JsMap.set (q_reminderId q)
            (ActiveEntry (next_timer s) (q_medicineName q) (JStr p) (q_time q)
               (now s) (now s + TIMER_DURATION cfg))
            (activeReminders s);
        next_timer := S (next_timer s);
        timers :=
          <[next_timer s :=
              MkTimeout (now s + TIMER_DURATION cfg)
                (Closure (q_reminderId q) (q_medicineName q) (JStr p) (q_time q)
                   (now s))]>
            (match JsMap.get (q_reminderId q) (activeReminders s) with
             | Some a => delete (timer a) (timers s)
             | None => timers s
             end);
        triggered := <[next_timer s := false]> (triggered s);
        awaiting := awaiting s;
        notifications := notifications s |},
     Responds 200
       (TimerSet (q_reminderId q) (now s) (now s + TIMER_DURATION cfg))).
Proof.
  intros Hid Hp Hplus. unfold createReminder. rewrite Hid, Hp, Hplus. simpl.
  by destruct (JsMap.get _ _).
Qed.

Lemma createReminder_cases q s :
  (truthy (q_reminderId q) = false) ∨
  (truthy (q_reminderId q) = true ∧
   ∀ p, q_guardianPhone q = JStr p → startsWith_plus p = false) ∨
  (truthy (q_reminderId q) = true ∧
   ∃ p, q_guardianPhone q = JStr p ∧ startsWith_plus p = true).
Proof.
  destruct (truthy (q_reminderId q)); [right | by left].
  destruct (q_guardianPhone q) as [| | | |p]; try (left; split; [done|]; by intros).
  destruct (startsWith_plus p) eqn:E; [right; eauto|].
  left. split; [done|]. by intros ? [= <-].
Qed.

(** The taken route, case by case. *)
Lemma markTaken_rejected id s :
  id = "" ∨ JsMap.get (JStr id) (allReminders s) = None →
  (markTaken id s).1 = s ∧
  (markTaken id s).2 =
    if decide (id = "") then Responds 400 InvalidReminderId
    else Responds 404 (ReminderNotFound id).
Proof.
  intros H. unfold markTaken. destruct (decide (id = "")) as [->|Hne]; [done|].
  pose proof (proj2 (truthy_JStr id) Hne) as Ht. rewrite Ht. simpl.
  destruct H as [H|H]; [done | by rewrite H].
Qed.

Lemma markTaken_accepted id s r :
  id ≠ "" → JsMap.get (JStr id) (allReminders s) = Some r →
  markTaken id s =
    ({| now := now s;
        allReminders :=
          JsMap.set (JStr id)
            (Reminder (medicineName r) (guardianPhone r) (time r) Taken
               (createdAt r) (Some (now s)))
            (allReminders s);
        activeReminders :=
          match JsMap.get (JStr id) (activeReminders s) with
          | Some _ => JsMap.remove (JStr id) (activeReminders s)
          | None => activeReminders s
          end;
        next_timer := next_timer s;
        timers :=
          match JsMap.get (JStr id) (activeReminders s) with
          | Some a => delete (timer a) (timers s)
          | None => timers s
          end;
        triggered := triggered s;
        awaiting := awaiting s;
        notifications := notifications s |},
     Responds 200 (MarkedTaken id Taken (Some (now s)))).
Proof.
  intros Hne Hr. pose proof (proj2 (truthy_JStr id) Hne) as Ht.
  unfold markTaken. rewrite Ht, Hr. simpl.
  by destruct (JsMap.get _ (activeReminders s)).
Qed.

(** A run of the timer callback by the event loop, case by case. *)
Lemma fire_cases s h :
  timers_ok s →
  fire cfg h s = s ∨
  ∃ t, timers s !! h = Some t ∧ deadline t ≤ now s ∧
    fire cfg h s =
      {| now := now s; allReminders := allReminders s;
         activeReminders :=
           if twilioClient cfg then activeReminders s
           else JsMap.remove (c_reminderId (callback t)) (activeReminders s);
         next_timer := next_timer s;
         timers := delete h (timers s);
         triggered := <[h := true]> (triggered s);
         awaiting :=
           if twilioClient cfg then <[h := callback t]> (awaiting s)
           else awaiting s;
         notifications :=
           Notification h (c_reminderId (callback t))
             (c_guardianPhone (callback t)) (c_medicineName (callback t))
             (c_time (callback t)) (now s) (twilioClient cfg)
           :: notifications s |}.
Proof.
  intros Hok. unfold fire.
  destruct (timers s !! h) as [t|] eqn:Ht; [|by left].
  case_decide; [|by left]. right. exists t. split_and!; [done..|].
  unfold timer_callback. simpl.
  rewrite (ok_pending s Hok h) by eauto.
  by destruct (twilioClient cfg).
Qed.

Lemma settle_cases s h ok :
  settle h ok s = s ∨
  ∃ cb, awaiting s !! h = Some cb ∧
    settle h ok s =
      {| now := now s; allReminders := allReminders s;
         activeReminders := JsMap.remove (c_reminderId cb) (activeReminders s);
         next_timer := next_timer s; timers := timers s;
         triggered := triggered s; awaiting := delete h (awaiting s);
         notifications := notifications s |}.
Proof.
  unfold settle. destruct (awaiting s !! h) as [cb|]; [|by left].
  right. by exists cb.
Qed.

(** The clock never goes back. *)
Lemma step_now s e : now s ≤ now (step cfg s e).1.
Proof. destruct e; simpl; by_cases; lia. Qed.

Lemma run_now s evs : now s ≤ now (run cfg s evs).
Proof.
  revert s. induction evs as [|e evs IH]; intros s; [done|].
  rewrite run_cons. etrans; [apply (step_now s e) | apply IH].
Qed.

Lemma reachable_now s : reachable cfg s → 0 ≤ now s.
Proof. intros [evs ->]. apply (run_now init evs). Qed.
End HandlerEquations.

Section ReachableShape.
Variable cfg : config.
Implicit Types (s : state) (h : nat) (e : event) (q : request).

Lemma record_ok_mono t t' r : t ≤ t' → record_ok t r → record_ok t' r.
Proof.
  unfold record_ok. intros Hle [Hc H]. split; [lia|].
  destruct (rstatus r); [done|]. destruct H as (x & Hx & Hb).
  exists x. split; [done | lia].
Qed.

Lemma fire_now h s : now (fire cfg h s) = now s.
Proof. by_cases. Qed.

Lemma settle_now h ok s : now (settle h ok s) = now s.
Proof. by_cases. Qed.

Lemma store_ok_ext s s' :
  now s' = now s → allReminders s' = allReminders s → store_ok s → store_ok s'.
Proof. unfold store_ok. by intros -> ->. Qed.

Lemma store_ok_step s e : store_ok s → store_ok (step cfg s e).1.
Proof.
  intros (Hnow & Hnd & Hall). destruct e as [q|id| |h|h ok|dt]; simpl.
  - assert (store_ok
      (set_allReminders
         (JsMap.set (q_reminderId q)
            (Reminder (q_medicineName q) (q_guardianPhone q) (q_time q)
               Active (now s) None) (allReminders s)) s) ∨
      truthy (q_reminderId q) = false) as [Hset|Hfalsy].
    { destruct (truthy (q_reminderId q)) eqn:Hid; [left | by right].
      split_and!; simpl; [done | by apply NoDup_keys_set |].
      apply Forall_set; [done|]. split; [done|]. split; simpl; [lia | done]. }
    2: { by rewrite createReminder_missing_id. }
    destruct (createReminder_cases q s) as [Hid|[[Hid Hp]|(Hid & p & Hp & Hplus)]].
    + by rewrite createReminder_missing_id.
    + by rewrite createReminder_not_armed.
    + rewrite (createReminder_armed_eq cfg q s p) by done.
      eapply store_ok_ext; [| |exact Hset]; simpl; by rewrite ?Hp.
  - destruct (decide (id = "")) as [->|Hne]; [done|].
    destruct (JsMap.get (JStr id) (allReminders s)) as [r|] eqn:Hr.
    2: { by rewrite (proj1 (markTaken_rejected id s (or_intror Hr))). }
    rewrite (markTaken_accepted id s r Hne Hr). simpl.
    split_and!; simpl; [done | by apply NoDup_keys_set |].
    apply Forall_set; [done|]. split; [by apply truthy_JStr|].
    apply get_elem_of in Hr.
    destruct (proj1 (Forall_forall _ _) Hall _ Hr) as [_ [Hc _]].
    split; simpl in *; [done|]. exists (now s). split; [done | lia].
  - done.
  - apply (store_ok_ext s); [apply fire_now | apply fire_allReminders | done].
  - apply (store_ok_ext s); [apply settle_now | apply settle_allReminders | done].
  - split_and!; simpl; [lia | done |].
    eapply Forall_impl; [exact Hall|]. intros [k r] [Hk Hr]. split; [done|].
    eapply record_ok_mono; [|exact Hr]. lia.
Qed.

Lemma reachable_store_ok s : reachable cfg s → store_ok s.
Proof.
  apply reachable_ind.
  - split_and!; simpl; [done | constructor | constructor].
  - intros ? ? _. apply store_ok_step.
Qed.

(** *** Where pending timeouts and notification attempts come from *)

Lemma step_timers_lookup s e h t :
  timers (step cfg s e).1 !! h = Some t →
  timers s !! h = Some t ∨
  ∃ q p, e = PostReminder q ∧ truthy (q_reminderId q) = true ∧
    q_guardianPhone q = JStr p ∧ startsWith_plus p = true ∧
    h = next_timer s ∧
    t = MkTimeout (now s + TIMER_DURATION cfg)
          (Closure (q_reminderId q) (q_medicineName q) (JStr p) (q_time q)
             (now s)).
Proof.
  destruct e as [q|id| |h'|h' ok|dt]; simpl; try (by left).
  - destruct (createReminder_cases q s) as [Hid|[[Hid Hp]|(Hid & p & Hp & Hplus)]].
    + rewrite createReminder_missing_id by done. by left.
    + rewrite createReminder_not_armed by done. by left.
    + rewrite (createReminder_armed_eq cfg q s p) by done. simpl.
      intros [[<- <-]|[Hne Hl]]%lookup_insert_Some.
      * right. by exists q, p.
      * left. destruct (JsMap.get _ _); [|done].
        by apply lookup_delete_Some in Hl as [_ ?].
  - intros Hl. left. revert Hl. by_cases.
    all: by intros [_ ?]%lookup_delete_Some.
  - intros Hl. left. revert Hl. by_cases.
    all: by intros [_ ?]%lookup_delete_Some.
  - intros Hl. left. revert Hl. by_cases.
Qed.

Lemma step_notifications s e :
  notifications (step cfg s e).1 = notifications s ∨
  ∃ h t, e = TimerFires h ∧ timers s !! h = Some t ∧ deadline t ≤ now s ∧
    notifications (step cfg s e).1 =
      Notification h (c_reminderId (callback t)) (c_guardianPhone (callback t))
        (c_medicineName (callback t)) (c_time (callback t)) (now s)
        (twilioClient cfg)
      :: notifications s.
Proof.
  destruct e as [q|id| |h|h ok|dt]; simpl; try (by left).
  - left. apply createReminder_notifications.
  - left. apply markTaken_notifications.
  - unfold fire. destruct (timers s !! h) as [t|] eqn:Ht; [|by left].
    case_decide; [|by left].
    destruct (decide (triggered (clearTimeout h s) !! h = Some true)) as [Htr|Htr].
    + left. by rewrite timer_callback_triggered.
    + right. exists h, t.
      destruct (timer_callback_first cfg h (callback t) _ Htr) as (_ & -> & _).
      done.
  - left. apply settle_notifications.
Qed.

Lemma closure_ok_step s e cb : closure_ok s cb → closure_ok (step cfg s e).1 cb.
Proof.
  intros (Hid & Hin & Hp). split_and!; [done| |done].
  destruct (step_keys_prefix cfg s e) as [k ->]. apply elem_of_app. by left.
Qed.

Lemma notification_ok_step s e n :
  notification_ok cfg s n → notification_ok cfg (step cfg s e).1 n.
Proof.
  intros (Hid & Hin & Hp & Hs & Hat). split_and!; [done| |done|done|].
  - destruct (step_keys_prefix cfg s e) as [k ->]. apply elem_of_app. by left.
  - pose proof (step_now cfg s e). lia.
Qed.

Lemma alerts_ok_step s e : 0 ≤ now s → alerts_ok cfg s → alerts_ok cfg (step cfg s e).1.
Proof.
  intros Hnow [Ht Hn]. pose proof (step_now cfg s e) as Hle. split.
  - intros h t Hl.
    apply step_timers_lookup in Hl as [Hl|(q & p & -> & Hid & Hp & Hplus & -> & ->)].
    + destruct (Ht h t Hl) as (Hc & Hd & Hs).
      split; [by apply closure_ok_step | split; [done | lia]].
    + simpl in *. split; [|split; [done | lia]].
      split_and!; simpl; [done| |by exists p].
      rewrite (createReminder_armed_eq cfg q s p) by done. simpl.
      apply get_keys. rewrite get_set_eq. eauto.
  - destruct (step_notifications s e) as [->|(h & t & -> & Hl & Hd & ->)].
    + eapply Forall_impl; [exact Hn|]. intros n. apply notification_ok_step.
    + constructor.
      * destruct (Ht h t Hl) as ((Hid & Hin & Hp) & _).
        apply (notification_ok_step s (TimerFires h)).
        split_and!; simpl; done.
      * eapply Forall_impl; [exact Hn|]. intros n. apply notification_ok_step.
Qed.

Lemma reachable_alerts_ok s : reachable cfg s → alerts_ok cfg s.
Proof.
  apply reachable_ind.
  - split; [intros h t; simpl; by rewrite lookup_empty | constructor].
  - intros s' e Hr. apply alerts_ok_step. by apply (reachable_now cfg).
Qed.
End ReachableShape.

Section LiveArms.
Variable cfg : config.
Implicit Types (s : state) (h : nat) (e : event) (q : request).

(** A pending timeout found through an entry is for the id of the entry. *)
Lemma live_pending_id s id a t :
  timers_ok s → entries_live s →
  JsMap.get id (activeReminders s) = Some a → timers s !! timer a = Some t →
  c_reminderId (callback t) = id.
Proof.
  intros Hok [Hent Haw] Ha Ht.
  destruct (Hent id a Ha) as [(t' & Ht' & Hid)|(cb & Hcb & _)]; [congruence|].
  pose proof (Haw _ _ Hcb) as Htr.
  by rewrite (ok_pending s Hok (timer a)) in Htr by eauto.
Qed.

Lemma awaiting_not_pending s h cb :
  timers_ok s → entries_live s → awaiting s !! h = Some cb → timers s !! h = None.
Proof.
  intros Hok [_ Haw] Hcb. destruct (timers s !! h) eqn:E; [|done].
  pose proof (Haw _ _ Hcb) as Htr.
  by rewrite (ok_pending s Hok h) in Htr by eauto.
Qed.

Lemma entries_live_step s e :
  timers_ok s → entries_live s → entries_live (step cfg s e).1.
Proof.
  intros Hok Hlive. pose proof Hlive as [Hent Haw].
  destruct e as [q|id| |h|h ok|dt]; simpl; try done.
  - destruct (createReminder_cases q s) as [Hid|[[Hid Hp]|(Hid & p & Hp & Hplus)]].
    + by rewrite createReminder_missing_id.
    + by rewrite createReminder_not_armed.
    + rewrite (createReminder_armed_eq cfg q s p) by done. split; simpl.
      * intros id a Hget. rewrite get_set in Hget.
        destruct (decide (id = q_reminderId q)) as [->|Hne].
        { injection Hget as <-. left. eexists. simpl.
          by rewrite lookup_insert_eq. }
        destruct (Hent id a Hget) as [(t & Ht & Hidt)|Haw']; [left|by right].
        exists t. split; [|done].
        destruct (pending_known s (timer a) Hok) as [Hlt _]; [eauto|].
        rewrite lookup_insert_ne by lia.
        destruct (JsMap.get (q_reminderId q) (activeReminders s)) as [a0|] eqn:Ha0;
          [|done].
        rewrite lookup_delete_ne; [done|]. intros Heq.
        rewrite <- Heq in Ht.
        pose proof (live_pending_id s _ a0 t Hok Hlive Ha0 Ht). congruence.
      * intros h cb Hcb. specialize (Haw h cb Hcb).
        rewrite lookup_insert_ne; [done|]. intros <-.
        destruct (ok_fresh s Hok (next_timer s)) as [Hnone _]; [lia | congruence].
  - destruct (decide (id = "")) as [->|Hne]; [done|].
    destruct (JsMap.get (JStr id) (allReminders s)) as [r|] eqn:Hr.
    2: { by rewrite (proj1 (markTaken_rejected id s (or_intror Hr))). }
    rewrite (markTaken_accepted id s r Hne Hr). split; simpl; [|done].
    intros id' a Hget.
    destruct (JsMap.get (JStr id) (activeReminders s)) as [a0|] eqn:Ha0; [|by apply Hent].
    rewrite get_remove in Hget. destruct (decide (id' = JStr id)) as [|Hne']; [done|].
    destruct (Hent id' a Hget) as [(t & Ht & Hidt)|Haw']; [left|by right].
    exists t. split; [|done]. rewrite lookup_delete_ne; [done|]. intros Heq.
    rewrite <- Heq in Ht.
    pose proof (live_pending_id s _ a0 t Hok Hlive Ha0 Ht). congruence.
  - destruct (fire_cases cfg s h Hok) as [->|(t & Ht & Hd & ->)]; [done|].
    split; simpl.
    + intros id a Hget.
      assert (JsMap.get id (activeReminders s) = Some a ∧
              (twilioClient cfg = false → id ≠ c_reminderId (callback t)))
        as [Hget0 Hne].
      { destruct (twilioClient cfg); [done|]. rewrite get_remove in Hget.
        destruct (decide (id = _)); [done|]. done. }
      destruct (Hent id a Hget0) as [(t' & Ht' & Hidt)|(cb & Hcb & Hidc)].
      * destruct (decide (timer a = h)) as [Heq|Hneq].
        { rewrite Heq in Ht'. assert (t' = t) as -> by congruence.
          destruct (twilioClient cfg) eqn:Hc; [|by destruct (Hne eq_refl)].
          right. exists (callback t). by rewrite Heq, lookup_insert_eq. }
        left. exists t'. by rewrite lookup_delete_ne.
      * right. exists cb. split; [|done].
        destruct (twilioClient cfg); [|done].
        rewrite lookup_insert_ne; [done|]. intros Heq.
        pose proof (awaiting_not_pending s _ cb Hok Hlive Hcb) as Hn.
        rewrite <- Heq in Hn. congruence.
    + intros h' cb Hcb. destruct (decide (h' = h)) as [->|Hneq].
      * apply lookup_insert_eq.
      * rewrite lookup_insert_ne by done. apply (Haw h' cb).
        destruct (twilioClient cfg); [|done]. by rewrite lookup_insert_ne in Hcb.
  - destruct (settle_cases s h ok) as [->|(cb & Hcb & ->)]; [done|].
    split; simpl.
    + intros id a Hget. rewrite get_remove in Hget.
      destruct (decide (id = _)) as [|Hne]; [done|].
      destruct (Hent id a Hget) as [?|(cb' & Hcb' & Hidc)]; [by left | right].
      exists cb'. split; [|done]. rewrite lookup_delete_ne; [done|].
      intros Heq. rewrite Heq in Hcb. congruence.
    + intros h' cb' [_ Hcb']%lookup_delete_Some. by apply (Haw h' cb').
Qed.

Lemma reachable_entries_live s : reachable cfg s → entries_live s.
Proof.
  apply reachable_ind.
  - split; [intros ? ? [=] | intros h cb; simpl; by rewrite lookup_empty].
  - intros s' e Hr. apply entries_live_step. by apply (reachable_timers_ok cfg).
Qed.

(** *** Without an SMS client the callback never suspends *)


End LiveArms.

Section NotDue.
Variable cfg : config.
Implicit Types (s : state) (h : nat) (e : event) (q : request).

Lemma step_next_timer s e : (next_timer s ≤ next_timer (step cfg s e).1)%nat.
Proof. destruct e; simpl; by_cases; lia. Qed.

(** An arm makes no attempt as long as the clock is short of its
    deadline. *)
Lemma not_due_no_attempt s evs h d :
  timers_ok s → (h < next_timer s)%nat → attempts_of h s = [] →
  (∀ t, timers s !! h = Some t → deadline t = d) →
  now (run cfg s evs) < d →
  attempts_of h (run cfg s evs) = [].
Proof.
  revert s. induction evs as [|e evs IH]; intros s Hok Hlt Hnone Hd Hnow; [done|].
  rewrite run_cons in Hnow |- *.
  pose proof (run_now cfg (step cfg s e).1 evs) as Hmono.
  pose proof (step_now cfg s e) as Hmono'.
  apply IH; [by apply timers_ok_step | | | | done].
  - pose proof (step_next_timer s e). lia.
  - unfold attempts_of in *.
    destruct (step_notifications cfg s e) as [->|(h' & t & -> & Hl & Hdue & ->)];
      [done|].
    destruct (decide (h' = h)) as [->|Hne].
    + rewrite (Hd t Hl) in Hdue. lia.
    + by rewrite filter_cons_False by (simpl; congruence).
  - intros t Hl.
    apply step_timers_lookup in Hl as [Hl|(q & p & _ & _ & _ & _ & -> & _)];
      [by apply Hd | lia].
Qed.
End NotDue.

Section Extras.
Variable cfg : config.
Implicit Types (s : state) (h : nat) (e : event) (q : request).



(** X3.  The taken route answers 400 on an empty id and 404 on an id that
    has no record, and changes nothing in either case; on an id that has a
    record it answers 200 with status taken and the time of the call. *)
Theorem X3_markTaken_outcomes id s :
  (id = "" → markTaken id s = (s, Responds 400 InvalidReminderId)) ∧
  (id ≠ "" → JsMap.get (JStr id) (allReminders s) = None →
   markTaken id s = (s, Responds 404 (ReminderNotFound id))) ∧
  (id ≠ "" → is_Some (JsMap.get (JStr id) (allReminders s)) →
   (markTaken id s).2 = Responds 200 (MarkedTaken id Taken (Some (now s))) ∧
   status_of (JStr id) (markTaken id s).1 = Some Taken).
Proof.
  split_and!.
  - by intros ->.
  - intros Hne Hr.
    destruct (markTaken_rejected id s (or_intror Hr)) as [H1 H2].
    rewrite (surjective_pairing (markTaken id s)), H1, H2.
    by destruct (decide (id = "")).
  - intros Hne [r Hr]. rewrite (markTaken_accepted id s r Hne Hr). simpl.
    split; [done|]. unfold status_of. simpl. by rewrite get_set_eq.
Qed.

(** X4.  The taken route touches only its own id.  Whatever it answers,
    the order of the listed ids is unchanged, every other record is as
    before, the record of the id keeps its payload and [createdAt], and in
    a reachable state no pending timeout armed for another id is cleared. *)
Theorem X4_markTaken_touches_only_its_id id s :
  reachable cfg s →
  let s' := (markTaken id s).1 in
  JsMap.keys (allReminders s') = JsMap.keys (allReminders s) ∧
  (∀ id', id' ≠ JStr id →
     JsMap.get id' (allReminders s') = JsMap.get id' (allReminders s) ∧
     JsMap.get id' (activeReminders s') = JsMap.get id' (activeReminders s)) ∧
  (∀ r, JsMap.get (JStr id) (allReminders s) = Some r →
     ∃ r', JsMap.get (JStr id) (allReminders s') = Some r' ∧
       medicineName r' = medicineName r ∧ guardianPhone r' = guardianPhone r ∧
       time r' = time r ∧ createdAt r' = createdAt r) ∧
  (∀ h t, timers s !! h = Some t → c_reminderId (callback t) ≠ JStr id →
     timers s' !! h = Some t).
Proof.
  intros Hreach s'. subst s'.
  pose proof (reachable_timers_ok cfg s Hreach) as Hok.
  pose proof (reachable_entries_live cfg s Hreach) as Hlive.
  destruct (decide (id = "")) as [->|Hne].
  { split_and!; try done. intros r Hr. exists r. done. }
  destruct (JsMap.get (JStr id) (allReminders s)) as [r|] eqn:Hr.
  2: { rewrite (proj1 (markTaken_rejected id s (or_intror Hr))).
       split_and!; try done. }
  rewrite (markTaken_accepted id s r Hne Hr). simpl. split_and!.
  - apply keys_set_present, get_keys. eauto.
  - intros id' Hne'. rewrite get_set_ne by done. split; [done|].
    destruct (JsMap.get (JStr id) (activeReminders s)); [|done].
    rewrite get_remove. by destruct (decide (id' = JStr id)).
  - intros r0 [= <-]. eexists. rewrite get_set_eq. done.
  - intros h t Hl Hneq.
    destruct (JsMap.get (JStr id) (activeReminders s)) as [a0|] eqn:Ha0; [|done].
    rewrite lookup_delete_ne; [done|]. intros Heq. rewrite <- Heq in Hl.
    by pose proof (live_pending_id s _ a0 t Hok Hlive Ha0 Hl).
Qed.
(** X5.  When [activeReminders] records a pending timeout for the id, the
    taken route clears it and removes the entry: whatever turns follow,
    that timeout is never pending again and never attempts a
    notification. *)
Theorem X5_markTaken_cancels_the_recorded_timer s id a evs :
  reachable cfg s → id ≠ "" →
  JsMap.get (JStr id) (activeReminders s) = Some a →
  is_Some (timers s !! timer a) →
  JsMap.has (JStr id) (activeReminders (markTaken id s).1) = false ∧
  timers (run cfg (markTaken id s).1 evs) !! timer a = None ∧
  attempts_of (timer a) (run cfg (markTaken id s).1 evs) = [].
Proof.
  intros Hreach Hid Ha Hp.
  destruct (markTaken_cancels_recorded_timer cfg s id a evs Hreach Hid Ha Hp)
    as (_ & ? & ? & ?).
  done.
Qed.



(** X8.  In every reachable state a record carries a [takenAt] exactly
    when its status is taken, it was created no later than now, and its
    [takenAt] lies between its creation and now. *)
Theorem X8_takenAt_present_iff_taken s id r :
  reachable cfg s → JsMap.get id (allReminders s) = Some r →
  (rstatus r = Taken ↔ is_Some (takenAt r)) ∧
  createdAt r ≤ now s ∧
  (∀ t, takenAt r = Some t → createdAt r ≤ t ≤ now s).
Proof.
  intros Hreach Hr. destruct (reachable_store_ok cfg s Hreach) as (_ & _ & Hall).
  apply get_elem_of in Hr.
  destruct (proj1 (Forall_forall _ _) Hall _ Hr) as [_ [Hc Hst]]. simpl in *.
  destruct (rstatus r).
  - rewrite Hst. split_and!; [|done|done]. split; [done | by intros [? ?]].
  - destruct Hst as (t & Ht & Hb). rewrite Ht.
    split_and!; [by split; eauto | done | by intros ? [= <-]].
Qed.


(** X10.  In every reachable state each notification attempt in the log is
    addressed to a phone string that starts with '+', is for a truthy id
    that has a record in the store, was made no later than now, and reached
    the SMS client exactly if the client is initialised. *)
Theorem X10_alerts_go_to_validated_phones s n :
  reachable cfg s → n ∈ notifications s →
  (∃ p, n_to n = JStr p ∧ startsWith_plus p = true) ∧
  truthy (n_reminderId n) = true ∧
  n_reminderId n ∈ JsMap.keys (allReminders s) ∧
  n_sent n = twilioClient cfg ∧
  n_at n ≤ now s.
Proof.
  intros Hreach Hn. destruct (reachable_alerts_ok cfg s Hreach) as [_ Hall].
  destruct (proj1 (Forall_forall _ _) Hall _ Hn) as (? & ? & ? & ? & ?).
  done.
Qed.

(** X11.  After a successful create, the arm it set up attempts no
    notification in any continuation in which the clock has not yet
    reached the request time plus [TIMER_DURATION]. *)
Theorem X11_no_alert_before_the_delay q s p evs :
  reachable cfg s → truthy (q_reminderId q) = true →
  q_guardianPhone q = JStr p → startsWith_plus p = true →
  now (run cfg (createReminder cfg q s).1 evs) < now s + TIMER_DURATION cfg →
  attempts_of (next_timer s) (run cfg (createReminder cfg q s).1 evs) = [].
Proof.
  intros Hreach Hid Hp Hplus Hnow.
  pose proof (reachable_timers_ok cfg s Hreach) as Hok.
  apply (not_due_no_attempt cfg _ evs _ (now s + TIMER_DURATION cfg));
    [by apply timers_ok_createReminder | | | | done].
  - rewrite (createReminder_armed_eq cfg q s p) by done. simpl. lia.
  - unfold attempts_of. rewrite createReminder_notifications.
    apply (ok_untriggered s Hok).
    destruct (ok_fresh s Hok (next_timer s)) as [-> _]; [lia | done].
  - rewrite (createReminder_armed_eq cfg q s p) by done. simpl.
    intros t. rewrite lookup_insert_eq. by intros [= <-].
Qed.



(** X14.  In every reachable state each entry of [activeReminders] stands
    for an arm that is still alive and was armed for the id of the entry:
    either its timeout is pending and has attempted nothing, or its
    callback has run and is suspended waiting for the SMS client. *)
Theorem X14_entries_stand_for_live_arms s id a :
  reachable cfg s → JsMap.get id (activeReminders s) = Some a →
  (timer a < next_timer s)%nat ∧
  ((∃ t, timers s !! timer a = Some t ∧ c_reminderId (callback t) = id ∧
         attempts_of (timer a) s = []) ∨
   (∃ cb, awaiting s !! timer a = Some cb ∧ c_reminderId cb = id ∧
          timers s !! timer a = None ∧ triggered s !! timer a = Some true)).
Proof.
  intros Hreach Ha.
  pose proof (reachable_timers_ok cfg s Hreach) as Hok.
  pose proof (reachable_entries_live cfg s Hreach) as Hlive.
  destruct Hlive as [Hent Haw].
  destruct (Hent id a Ha) as [(t & Ht & Hid)|(cb & Hcb & Hid)].
  - destruct (pending_known s (timer a) Hok) as [Hlt Hnone]; [eauto|].
    split; [done|]. left. by exists t.
  - pose proof (Haw _ _ Hcb) as Htr. split.
    + destruct (decide (timer a < next_timer s)%nat) as [|Hge]; [done|].
      destruct (ok_fresh s Hok (timer a)) as [Hnone _]; [lia | congruence].
    + right. exists cb. split_and!; [done..| |done].
      by apply (awaiting_not_pending s _ cb Hok (conj Hent Haw)).
Qed.

End Extras.

(** ** Properties of the account routes *)

Section AuthFacts.
Variable jwt_sign : string → Z → string.
Implicit Types (a : accounts) (b : signup_body) (us : list (jsval * user))
  (u : user) (k email password : jsval).



Lemma find_user_Some email us u :
  find_user email us = Some u →
  u_email u = email ∧ ∃ k, (k, u) ∈ us.
Proof.
  unfold find_user. induction us as [|[k0 u0] us IH]; simpl; [done|].
  destruct (bool_decide (u_email u0 = email)) eqn:E; simpl.
  - intros [= <-]. apply bool_decide_eq_true in E. split; [done|].
    exists k0. left.
  - intros H. destruct (IH H) as [? [k ?]]. split; [done|]. exists k. by right.
Qed.






Lemma signup_checks_phone b a :
  signup_fields_present b = true →
  signup jwt_sign b a =
    match b_guardianPhone b with
    | JStr p =>
        if negb (startsWith_plus p)
        then (a, AuthResponds 400 PhoneMustStartWithPlus)
        else if email_registered (b_email b) (users a)
        then (a, AuthResponds 400 EmailAlreadyRegistered)
        else
          ({| clock := clock a;
              users := JsMap.set (JStr (pretty (clock a)))
                         (new_user (clock a) b) (users a) |},
           AuthResponds 201
             (Session (userWithoutPassword (new_user (clock a) b))
                (jwt_sign (pretty (clock a)) (clock a))))
    | _ => (a, AuthThrowsTypeError)
    end.
Proof.
  unfold signup, signup_fields_present.
  repeat (destruct (truthy _); simpl; try done).
Qed.




(** The login route, case by case. *)
Lemma login_state email password a : (login jwt_sign email password a).1 = a.
Proof. unfold login. repeat case_match; done. Qed.



(** *** The shape of [users] is kept by every turn *)




End AuthFacts.

Section AuthExtras.
Variable jwt_sign : string → Z → string.
Implicit Types (a : accounts) (b : signup_body) (u : user)
  (email password : jsval).


(** X16.  A signup body whose seven fields are all truthy but whose
    guardianPhone is not a string (a number, or [true]) is not answered
    400: the call of [startsWith] throws a TypeError out of the handler,
    and nothing is stored. *)
Theorem X16_signup_throws_on_non_string_phone b a :
  signup_fields_present b = true →
  (∀ p, b_guardianPhone b ≠ JStr p) →
  signup jwt_sign b a = (a, AuthThrowsTypeError).
Proof.
  intros Hf Hp. rewrite signup_checks_phone by done.
  destruct (b_guardianPhone b) as [| | | |p]; try done. by destruct (Hp p).
Qed.



(** X19.  The login route never changes [users].  It answers 400 when the
    email or the password is falsy.  It answers 200 only for a stored user
    whose email and password both equal the ones given, and then returns
    that user without the password and a token for that user's id.  With
    truthy credentials every failure is the same 401, whether the email is
    unknown or the password is wrong. *)
Theorem X19_login_authenticates_only_matching_user email password a :
  (login jwt_sign email password a).1 = a ∧
  (truthy email = false ∨ truthy password = false →
   (login jwt_sign email password a).2 = AuthResponds 400 EmailAndPasswordRequired) ∧
  (∀ body, (login jwt_sign email password a).2 = AuthResponds 200 body →
     ∃ k u, (k, u) ∈ users a ∧ u_email u = email ∧ u_password u = password ∧
       body = Session (userWithoutPassword u) (jwt_sign (u_id u) (clock a))) ∧
  (truthy email = true → truthy password = true →
   (∀ body, (login jwt_sign email password a).2 ≠ AuthResponds 200 body) →
   (login jwt_sign email password a).2 = AuthResponds 401 InvalidEmailOrPassword).
Proof.
  split_and!.
  - apply login_state.
  - unfold login. intros [->| ->]; [done|]. by destruct (truthy email).
  - intros body. unfold login.
    destruct (negb (truthy email) || negb (truthy password)); [done|].
    destruct (find_user email (users a)) as [u|] eqn:Hfind; [|done].
    destruct (decide (u_password u = password)) as [Hpw|]; [|done].
    simpl. intros [= <-].
    destruct (find_user_Some email (users a) u Hfind) as [He [k Hin]].
    by exists k, u.
  - intros He Hp Hno. unfold login in *. rewrite He, Hp in *. simpl in *.
    destruct (find_user email (users a)) as [u|]; [|done].
    destruct (decide (u_password u = password)); [|done].
    by destruct (Hno _ eq_refl).
Qed.


End AuthExtras.

(** ** Properties of the SMS test routes *)

Section TestRouteExtras.
Variable cfg : config.
Variable create : sms → sms_result.

(** X22.  The immediate test route hands a message to the SMS client
    exactly when the client is initialised and the phone number is a
    string starting with '+'; it is then one message, addressed to that
    number.  A string without the '+' is answered 400; a phone number that
    is not a string is answered 500, because the TypeError of the format
    check is caught by the route. *)
Theorem X22_immediate_test_sends_only_to_valid_numbers t_now phoneNumber :
  ((post_immediate_test_sms cfg create t_now phoneNumber).1 ≠ [] ↔
   twilioClient cfg = true ∧
   ∃ p, phoneNumber = JStr p ∧ startsWith_plus p = true) ∧
  (∀ m, m ∈ (post_immediate_test_sms cfg create t_now phoneNumber).1 →
        (post_immediate_test_sms cfg create t_now phoneNumber).1 = [m] ∧
        sms_to m = phoneNumber) ∧
  (twilioClient cfg = true →
   ∀ p, phoneNumber = JStr p → startsWith_plus p = false →
        post_immediate_test_sms cfg create t_now phoneNumber
        = ([], TestResponds 400 InvalidPhoneNumberFormat)) ∧
  (twilioClient cfg = true → (∀ p, phoneNumber ≠ JStr p) →
   post_immediate_test_sms cfg create t_now phoneNumber
   = ([], TestResponds 500 (FailedToSend TypeErrorMessage JUndefined))).
Proof.
  unfold post_immediate_test_sms.
  destruct (twilioClient cfg); simpl.
  2: { split_and!; try done. split; [done | by intros [? _]]. by intros ? ?%elem_of_nil. }
  destruct phoneNumber as [| | | |p];
    try (split_and!; [split; [done | by intros (_ & ? & ? & _)]
                     | by intros ? ?%elem_of_nil | done | done]).
  destruct (startsWith_plus p) eqn:Hplus; simpl.
  - split_and!.
    + split; [eauto|]. intros _. by destruct (create _).
    + intros m. destruct (create _); intros ->%list_elem_of_singleton; done.
    + by intros _ ? [= <-] ?; congruence.
    + intros _ Hno. by destruct (Hno p).
  - split_and!.
    + split; [done|]. by intros (_ & ? & [= <-] & ?); congruence.
    + by intros ? ?%elem_of_nil.
    + done.
    + intros _ Hno. by destruct (Hno p).
Qed.

(** X23.  Each of the three test routes answers 200 exactly when it handed
    one message to the SMS client and the client accepted it.  Without an
    initialised client none of them hands over anything and all answer
    500.  With a client, the plain POST route and the GET route hand over
    whatever phone number they are given, without any format check. *)
Theorem X23_test_routes_answer_200_iff_sms_accepted t_now phoneNumber number :
  let sent r := ∃ m sid st, r.1 = [m] ∧ create m = SmsFulfilled sid st in
  let ok r := ∃ body, r.2 = TestResponds 200 body in
  (ok (post_test_sms cfg create phoneNumber)
     ↔ sent (post_test_sms cfg create phoneNumber)) ∧
  (ok (post_immediate_test_sms cfg create t_now phoneNumber)
     ↔ sent (post_immediate_test_sms cfg create t_now phoneNumber)) ∧
  (ok (get_test_sms cfg create number)
     ↔ sent (get_test_sms cfg create number)) ∧
  (twilioClient cfg = false →
   post_test_sms cfg create phoneNumber
     = ([], TestResponds 500 ClientNotInitialized) ∧
   post_immediate_test_sms cfg create t_now phoneNumber
     = ([], TestResponds 500 ClientNotInitialized) ∧
   get_test_sms cfg create number
     = ([], TestResponds 500 (DirectFailed TypeErrorMessage))) ∧
  (twilioClient cfg = true →
   (post_test_sms cfg create phoneNumber).1 = [Sms phoneNumber TestMessage] ∧
   (get_test_sms cfg create number).1 = [Sms (JStr number) DirectTestMessage]).
Proof.
  intros sent ok. subst sent ok.
  unfold post_test_sms, post_immediate_test_sms, get_test_sms.
  destruct (twilioClient cfg); simpl.
  2: { split_and!; try done;
         (split; [by intros [? [=]] | by intros (? & ? & ? & [=] & _)]). }
  assert (∀ m body5 (body2 : string → string → test_body),
    (∃ body, (match create m with
              | SmsFulfilled sid st => ([m], TestResponds 200 (body2 sid st))
              | SmsRejected msg code => ([m], TestResponds 500 (body5 msg code))
              end).2 = TestResponds 200 body) ↔
    (∃ m' sid st,
       (match create m with
        | SmsFulfilled sid st => ([m], TestResponds 200 (body2 sid st))
        | SmsRejected msg code => ([m], TestResponds 500 (body5 msg code))
        end).1 = [m'] ∧ create m' = SmsFulfilled sid st)) as Hroute.
  { intros m body5 body2. destruct (create m) as [sid st|msg code] eqn:E;
      simpl; split.
    - intros _. by exists m, sid, st.
    - eauto.
    - by intros [? [=]].
    - intros (m' & sid & st & [= <-] & Hc). congruence. }
  split; [apply (Hroute _ (λ msg code, FailedToSend (ClientError msg) code)
                   (λ sid _, TestSent sid))|].
  split.
  { destruct phoneNumber as [| | | |p]; simpl;
      try (split; [by intros [? [=]] | by intros (? & ? & ? & [=] & _)]).
    destruct (startsWith_plus p); simpl;
      [|split; [by intros [? [=]] | by intros (? & ? & ? & [=] & _)]].
    apply (Hroute _ (λ msg code, FailedToSend (ClientError msg) code)
             (λ sid st, ImmediateSent sid (JStr p) st)). }
  split; [apply (Hroute _ (λ msg _, DirectFailed (ClientError msg))
                   (λ sid _, DirectSent sid))|].
  split; [done|].
  intros _. split; by destruct (create _).
Qed.
End TestRouteExtras.

(** ** The further properties on concrete runs *)



Lemma X3_markTaken_outcomes_witness :
  markTaken "r9" (run dev init [PostReminder r1])
  = (run dev init [PostReminder r1], Responds 404 (ReminderNotFound "r9")).
Proof.
  apply (proj1 (proj2 (X3_markTaken_outcomes "r9" (run dev init [PostReminder r1])))).
  - discriminate.
  - reflexivity.
Defined.

Lemma X4_markTaken_touches_only_its_id_witness :
  JsMap.keys
    (allReminders
       (markTaken "r1"
          (run dev init
             [PostReminder r1;
              PostReminder (reminder_request "r2" (JStr "+15550000000"))])).1)
  = [JStr "r1"; JStr "r2"].
Proof.
  refine (proj1
    (X4_markTaken_touches_only_its_id dev "r1"
       (run dev init
          [PostReminder r1;
           PostReminder (reminder_request "r2" (JStr "+15550000000"))]) _)).
  by eexists.
Defined.

Lemma X5_markTaken_cancels_the_recorded_timer_witness :
  attempts_of 0
    (run dev
       (markTaken "r1" (run dev init [PostReminder r1; ClockAdvances 5000])).1
       [ClockAdvances 10000; TimerFires 0])
  = [].
Proof.
  refine (proj2 (proj2
    (X5_markTaken_cancels_the_recorded_timer dev
       (run dev init [PostReminder r1; ClockAdvances 5000]) "r1" r1_entry
       [ClockAdvances 10000; TimerFires 0] _ _ _ _))).
  - by eexists.
  - discriminate.
  - reflexivity.
  - by eexists.
Defined.



Lemma X8_takenAt_present_iff_taken_witness :
  Taken = Taken ↔ is_Some (Some 5000).
Proof.
  refine (proj1
    (X8_takenAt_present_iff_taken dev
       (run dev init [PostReminder r1; ClockAdvances 5000; PostTaken "r1"])
       (JStr "r1")
       (Reminder (JStr "aspirin") (JStr "+15551234567") (JStr "08:00") Taken 0
          (Some 5000)) _ _)).
  - by eexists.
  - reflexivity.
Defined.


Lemma X10_alerts_go_to_validated_phones_witness :
  ∃ p, JStr "+15551234567" = JStr p ∧ startsWith_plus p = true.
Proof.
  refine (proj1
    (X10_alerts_go_to_validated_phones dev
       (run dev init [PostReminder r1; ClockAdvances 10000; TimerFires 0])
       (r1_alert 0 10000) _ _)).
  - by eexists.
  - vm_compute. left.
Defined.

Lemma X11_no_alert_before_the_delay_witness :
  attempts_of 0
    (run dev (createReminder dev r1 init).1 [ClockAdvances 9999; TimerFires 0])
  = [].
Proof.
  refine (X11_no_alert_before_the_delay dev r1 init "+15551234567"
            [ClockAdvances 9999; TimerFires 0] _ _ _ _ _).
  - by exists [].
  - reflexivity.
  - reflexivity.
  - reflexivity.
  - vm_compute. reflexivity.
Defined.



Lemma X14_entries_stand_for_live_arms_witness :
  (0 < next_timer (run dev init [PostReminder r1]))%nat.
Proof.
  refine (proj1
    (X14_entries_stand_for_live_arms dev (run dev init [PostReminder r1])
       (JStr "r1") r1_entry _ _)).
  - by eexists.
  - reflexivity.
Defined.


Lemma X16_signup_throws_on_non_string_phone_witness :
  signup plain_token (signup_of "Alice" "alice@example.org" (JNum 15551234567))
    no_accounts
  = (no_accounts, AuthThrowsTypeError).
Proof.
  apply X16_signup_throws_on_non_string_phone.
  - reflexivity.
  - intros p. discriminate.
Defined.



Lemma X19_login_authenticates_only_matching_user_witness :
  (login plain_token JUndefined (JStr "secret") no_accounts).2
  = AuthResponds 400 EmailAndPasswordRequired.
Proof.
  apply (proj1 (proj2
    (X19_login_authenticates_only_matching_user plain_token JUndefined
       (JStr "secret") no_accounts))).
  left. reflexivity.
Defined.



Lemma X22_immediate_test_sends_only_to_valid_numbers_witness :
  post_immediate_test_sms dev accepting 0 (JStr "15551234567")
  = ([], TestResponds 400 InvalidPhoneNumberFormat).
Proof.
  apply (proj1 (proj2 (proj2
    (X22_immediate_test_sends_only_to_valid_numbers dev accepting 0
       (JStr "15551234567"))))
    eq_refl "15551234567" eq_refl eq_refl).
Defined.

Lemma X23_test_routes_answer_200_iff_sms_accepted_witness :
  get_test_sms no_sms accepting "+15551234567"
  = ([], TestResponds 500 (DirectFailed TypeErrorMessage)).
Proof.
  apply (proj2 (proj2 (proj1 (proj2 (proj2 (proj2
    (X23_test_routes_answer_200_iff_sms_accepted no_sms accepting 0
       (JStr "+15551234567") "+15551234567"))))
    eq_refl))).
Defined.
